(** * Storefront client (js/script.js): escaping, catalogue filter,
      checkout totals and the M-Pesa payment-status poller.

    JavaScript strings are modelled as [string], optional object fields as
    [option], JavaScript numbers as binary64 floating-point numbers
    ([float]) for prices and as [Z] for counters and millisecond clocks. *)

From Stdlib Require Import ZArith List String Ascii Bool Lia QArith Qround Lqa.
From Stdlib Require PrimFloat FloatOps SpecFloat.
Import ListNotations.

Local Open Scope string_scope.

(* ================================================================== *)
(** ** Utility functions: [escapeHtml] (script.js, lines 263-273) *)
(* ================================================================== *)

Module Html.

(** The argument of [escapeHtml]: a string, or one of the two absent
    values the callers may pass. *)
Inductive JsText :=
| JsUndefined
| JsNull
| JsStr (s : string).

(** [!text] *)
Definition falsy (text : JsText) : bool :=
  match text with
  | JsStr (String _ _) => false
  | _ => true
  end.

Definition dquote : ascii := "034"%char.
Definition squote : ascii := "039"%char.

(** The [map] object of [escapeHtml], applied by the replacer
    [char => map[char]]; the regular expression matches the five keys of
    [map] (ampersand, angle brackets, double and single quote) and every
    other character is kept. *)
Definition escapeChar (c : ascii) : string :=
  match c with
  | "&"%char => "&amp;"
  | "<"%char => "&lt;"
  | ">"%char => "&gt;"
  | "034"%char => "&quot;"
  | "039"%char => "&#039;"
  | _ => String c EmptyString
  end.

(** [text.replace(re, char => map[char])] with the global flag: every
    match of the character class is replaced. *)
Fixpoint replaceAll (s : string) : string :=
  match s with
  | EmptyString => EmptyString
  | String c rest => escapeChar c ++ replaceAll rest
  end.

Definition escapeHtml (text : JsText) : string :=
  if falsy text then EmptyString
  else match text with
       | JsStr s => replaceAll s
       | _ => EmptyString
       end.

(** Membership of a character in a string. *)
Fixpoint occurs (c : ascii) (s : string) : Prop :=
  match s with
  | EmptyString => False
  | String d rest => c = d \/ occurs c rest
  end.

Definition raw (c : ascii) : Prop :=
  c = "<"%char \/ c = ">"%char \/ c = dquote \/ c = squote.

End Html.

(* ================================================================== *)
(** ** Catalogue: [filterProducts] (script.js, lines 195-212) *)
(* ================================================================== *)

Module Catalog.

(** The fields of a product object that the filter reads. A field is
    [None] when the object lacks it. *)
Record Product := {
  product_name : option string;
  supplier_name : option string;
  sku : option string;
  category : option string
}.

(** The module-level variables of the marketplace page. *)
Record Store := {
  allProducts : list Product;
  filteredProducts : list Product;
  activeCategory : string;
  searchQuery : string
}.

(** [String.prototype.toLowerCase] on the ASCII letters; other code
    points are left as they are. *)
Definition lowerChar (c : ascii) : ascii :=
  let n := nat_of_ascii c in
  if (65 <=? n)%nat && (n <=? 90)%nat then ascii_of_nat (n + 32) else c.

Fixpoint toLowerCase (s : string) : string :=
  match s with
  | EmptyString => EmptyString
  | String c rest => String (lowerChar c) (toLowerCase rest)
  end.

(** [s.includes(sub)]: [sub] occurs in [s] as a contiguous run. *)
Fixpoint includes (s sub : string) : bool :=
  prefix sub s ||
  match s with
  | EmptyString => false
  | String _ rest => includes rest sub
  end.

(** [field && test(field)]: an absent field and the empty string are
    falsy, so the test is not run on them. *)
Definition andThen (field : option string) (test : string -> bool) : bool :=
  match field with
  | Some (String c rest) => test (String c rest)
  | _ => false
  end.

Definition matchesCategory (st : Store) (product : Product) : bool :=
  String.eqb (activeCategory st) "all" ||
  andThen (category product)
          (fun c => String.eqb (toLowerCase c) (activeCategory st)).

Definition matchesSearch (st : Store) (product : Product) : bool :=
  let searchLower := toLowerCase (searchQuery st) in
  andThen (product_name product)
          (fun n => includes (toLowerCase n) searchLower) ||
  andThen (supplier_name product)
          (fun n => includes (toLowerCase n) searchLower) ||
  andThen (sku product) (fun k => includes k (searchQuery st)).

(** [filterProducts()]: reassigns [filteredProducts]; the other variables
    are untouched ([renderProducts] only writes to the page). *)
Definition filterProducts (st : Store) : Store :=
  {| allProducts := allProducts st;
     filteredProducts :=
       filter (fun product => matchesCategory st product && matchesSearch st product)
              (allProducts st);
     activeCategory := activeCategory st;
     searchQuery := searchQuery st |}.

(** A field is present when the object has it with a non-empty value. *)
Definition present (field : option string) (s : string) : Prop :=
  field = Some s /\ s <> EmptyString.

(** What it means for a product to satisfy the search through one of its
    three searched fields. *)
Definition satisfiesSearch (st : Store) (product : Product) : Prop :=
  (exists n, present (product_name product) n /\
             includes (toLowerCase n) (toLowerCase (searchQuery st)) = true) \/
  (exists n, present (supplier_name product) n /\
             includes (toLowerCase n) (toLowerCase (searchQuery st)) = true) \/
  (exists k, present (sku product) k /\
             includes k (searchQuery st) = true).

Definition nameless (product : Product) : Prop :=
  product_name product = None /\ supplier_name product = None /\
  sku product = None.

(** A catalogue of two products, the second of which carries a category
    only; no category filter and no search text. *)
Definition widget : Product :=
  {| product_name := Some "Steel Widget"; supplier_name := Some "Acme";
     sku := Some "SW-1"; category := Some "Tools" |}.

Definition anonymous : Product :=
  {| product_name := None; supplier_name := None; sku := None;
     category := Some "Tools" |}.

Definition freshStore : Store :=
  {| allProducts := [widget; anonymous];
     filteredProducts := [widget; anonymous];
     activeCategory := "all"; searchQuery := EmptyString |}.

End Catalog.

(* ================================================================== *)
(** ** Checkout: [renderOrderItems] (lines 1199-1226), [calculateTotals]
       (lines 1232-1263), the payload of [initiatePayment] (lines
       1319-1331) *)
(* ================================================================== *)

Module Checkout.

Import PrimFloat FloatOps SpecFloat.
Local Open Scope float_scope.

(** JavaScript numbers are IEEE 754 doubles: they are modelled by the
    binary64 type [float], with its addition and multiplication. *)

(** A cart item as parsed from session storage. [markup] is a price
    component the pricing service reports (see [renderPriceBreakdown]);
    no checkout function reads it. *)
Record CartItem := {
  final_price_kes : option float;
  quantity : option float;
  supplier_cost : option float;
  international_freight : option float;
  kra_duty : option float;
  vat : option float;
  platform_fee : option float;
  markup : option float
}.

(** [!x] on a number: 0, -0 and NaN are falsy. *)
Definition falsy (x : float) : bool := (x =? 0) || negb (x =? x).

(** [x || d] on a number that may be missing. *)
Definition orElse (x : option float) (d : float) : float :=
  match x with
  | Some q => if falsy q then d else q
  | None => d
  end.

(** The accumulators of [calculateTotals]. *)
Record Totals := {
  subtotal : float;
  shipping : float;
  taxes : float;
  fees : float
}.

(** The body of the [cart.forEach] callback of [calculateTotals]. *)
Definition addItem (acc : Totals) (item : CartItem) : Totals :=
  let qty := orElse (quantity item) 1 in
  {| subtotal := subtotal acc + orElse (supplier_cost item) 0 * qty;
     shipping := shipping acc + orElse (international_freight item) 0 * qty;
     taxes := (taxes acc + orElse (kra_duty item) 0 * qty)
              + orElse (vat item) 0 * qty;
     fees := fees acc + orElse (platform_fee item) 0 * qty |}.

Definition noTotals : Totals :=
  {| subtotal := 0; shipping := 0; taxes := 0; fees := 0 |}.

Definition accumulate (cart : list CartItem) : Totals :=
  fold_left addItem cart noTotals.

(** [subtotal + shipping + taxes + fees], added from left to right. *)
Definition grand (t : Totals) : float :=
  subtotal t + shipping t + taxes t + fees t.

(** [calculateTotals(cart)]: the value stored in [window.orderTotal]. *)
Definition calculateTotals (cart : list CartItem) : float :=
  grand (accumulate cart).

(** The exact value of a double, [None] for NaN and the infinities. *)
Definition valueOf (x : float) : option Q :=
  match Prim2SF x with
  | S754_zero _ => Some 0%Q
  | S754_finite s m e =>
      let n := if s then Z.neg m else Z.pos m in
      Some match e with
           | Z0 => (n # 1)%Q
           | Zpos p => ((n * 2 ^ Zpos p) # 1)%Q
           | Zneg p => (n # (2 ^ p))%Q
           end
  | S754_infinity _ | S754_nan => None
  end.

(** The same, with 0 where there is none. *)
Definition val (x : float) : Q :=
  match valueOf x with
  | Some v => v
  | None => 0%Q
  end.

(** [Math.round]: the nearest integer, halves towards plus infinity,
    taken on the exact value of the double; [None] for NaN and the
    infinities, which [JSON.stringify] writes as null. *)
Definition Math_round (x : float) : option Z :=
  match valueOf x with
  | Some v => Some (Qfloor (v + (1 # 2)))
  | None => None
  end.

(** The [amount] field of the payload built by [initiatePayment]. *)
Definition paymentAmount (cart : list CartItem) : option Z :=
  Math_round (calculateTotals cart).

(** [itemTotal] of [renderOrderItems]: the line total shown per item. *)
Definition itemTotal (item : CartItem) : float :=
  orElse (final_price_kes item) 0 * orElse (quantity item) 1.

(** The exact sum of the line totals shown. *)
Definition lineTotals (cart : list CartItem) : Q :=
  fold_right (fun item acc => (val (itemTotal item) + acc)%Q) 0%Q cart.

(** The five landed-cost components of one item, times its quantity (1
    for a missing or falsy quantity), in exact arithmetic on the values
    of the doubles. *)
Definition componentCost (item : CartItem) : Q :=
  ((val (orElse (supplier_cost item) 0)
    + val (orElse (international_freight item) 0)
    + val (orElse (kra_duty item) 0) + val (orElse (vat item) 0)
    + val (orElse (platform_fee item) 0))
   * val (orElse (quantity item) 1))%Q.

Definition componentSum (cart : list CartItem) : Q :=
  fold_right (fun item acc => (componentCost item + acc)%Q) 0%Q cart.

(** The same sum with the quantity of each item as it is given (1 only
    when the item has none). *)
Definition statedCost (item : CartItem) : Q :=
  ((val (orElse (supplier_cost item) 0)
    + val (orElse (international_freight item) 0)
    + val (orElse (kra_duty item) 0) + val (orElse (vat item) 0)
    + val (orElse (platform_fee item) 0))
   * match quantity item with
     | Some q => val q
     | None => 1
     end)%Q.

Definition statedSum (cart : list CartItem) : Q :=
  fold_right (fun item acc => (statedCost item + acc)%Q) 0%Q cart.

(** The addition, or the multiplication, of two doubles loses nothing:
    the value of the result is the sum, or the product, of the values. *)
Definition exactAdd (a b : float) : bool :=
  match valueOf a, valueOf b, valueOf (a + b) with
  | Some x, Some y, Some z => Qeq_bool (x + y) z
  | _, _, _ => false
  end.

Definition exactMul (a b : float) : bool :=
  match valueOf a, valueOf b, valueOf (a * b) with
  | Some x, Some y, Some z => Qeq_bool (x * y) z
  | _, _, _ => false
  end.

(** No operation of [addItem] rounds. *)
Definition exactItem (acc : Totals) (item : CartItem) : bool :=
  let qty := orElse (quantity item) 1 in
  let cost := orElse (supplier_cost item) 0 in
  let freight := orElse (international_freight item) 0 in
  let duty := orElse (kra_duty item) 0 in
  let tax := orElse (vat item) 0 in
  let fee := orElse (platform_fee item) 0 in
  exactMul cost qty && exactAdd (subtotal acc) (cost * qty)
  && exactMul freight qty && exactAdd (shipping acc) (freight * qty)
  && exactMul duty qty && exactAdd (taxes acc) (duty * qty)
  && exactMul tax qty && exactAdd (taxes acc + duty * qty) (tax * qty)
  && exactMul fee qty && exactAdd (fees acc) (fee * qty).

(** No addition of [grand] rounds. *)
Definition exactGrand (t : Totals) : bool :=
  exactAdd (subtotal t) (shipping t)
  && exactAdd (subtotal t + shipping t) (taxes t)
  && exactAdd (subtotal t + shipping t + taxes t) (fees t).

Fixpoint exactFrom (acc : Totals) (cart : list CartItem) : bool :=
  match cart with
  | [] => exactGrand acc
  | item :: rest => exactItem acc item && exactFrom (addItem acc item) rest
  end.

(** The exact value of the four accumulators together. *)
Definition worth (t : Totals) : Q :=
  (val (subtotal t) + val (shipping t) + val (taxes t) + val (fees t))%Q.

(** No operation of [calculateTotals(cart)] rounds, as is the case for
    whole amounts far below 2^53. *)
Definition exact (cart : list CartItem) : bool := exactFrom noTotals cart.

(** The same item with another final price and another margin. *)
Definition reprice (price margin : option float) (item : CartItem)
  : CartItem :=
  {| final_price_kes := price; quantity := quantity item;
     supplier_cost := supplier_cost item;
     international_freight := international_freight item;
     kra_duty := kra_duty item; vat := vat item;
     platform_fee := platform_fee item; markup := margin |}.

(** An item whose components add up to 1000 and whose final price, with
    a margin of 150, is 1150. *)
Definition markedUpItem : CartItem :=
  {| final_price_kes := Some 1150; quantity := Some 2;
     supplier_cost := Some 600; international_freight := Some 200;
     kra_duty := Some 50; vat := Some 100; platform_fee := Some 50;
     markup := Some 150 |}.

(** The same item with quantity 0. *)
Definition unorderedItem : CartItem :=
  {| final_price_kes := Some 1150; quantity := Some 0;
     supplier_cost := Some 600; international_freight := Some 200;
     kra_duty := Some 50; vat := Some 100; platform_fee := Some 50;
     markup := Some 150 |}.

(** Five units with freight 4.68, duty 14.66 and fee 2.16: the doubles
    nearest to these decimals, in hexadecimal. *)
Definition decimalItem : CartItem :=
  {| final_price_kes := None; quantity := Some 5;
     supplier_cost := None;
     international_freight := Some 0x1.2b851eb851eb8p+2;
     kra_duty := Some 0x1.d51eb851eb852p+3; vat := None;
     platform_fee := Some 0x1.147ae147ae148p+1;
     markup := None |}.

End Checkout.

(* ================================================================== *)
(** ** Transport: the [fetch] calls and their abort timers *)
(* ================================================================== *)

Module Transport.

Local Open Scope Z_scope.

(** [CONFIG.TIMEOUT_MS] *)
Definition TIMEOUT_MS : Z := 15000.

(** The JSON body of [GET /webhook/payment-status]. *)
Record PaymentData := {
  status : option string;
  error : option string;
  order_id : option string;
  merchant_request_id : option string
}.

(** How the promise returned by [fetch] (followed by [response.json()])
    settles. [Responded code None] is a response whose body does not
    parse to an object. *)
Inductive FetchResult :=
| Rejected
| Aborted
| Responded (code : Z) (body : option PaymentData).

(** What the network does with one request: after [latency] milliseconds
    it produces [result]; [latency = None] is a request that is never
    answered. *)
Record Reply := {
  latency : option Z;
  result : FetchResult
}.

(** The functions of the file that call [fetch] (lines 64, 358, 399,
    627, 679, 912, 1005, 1334 and 1388). *)
Inductive RequestSite :=
| FetchProducts
| FetchProductDetails
| FetchPricingCalculation
| DownloadQuote
| RequestSample
| HandleLoginSubmit
| HandleRegisterSubmit
| InitiatePayment
| PollPaymentStatus.

(** The delay of the [setTimeout(() => controller.abort(), ...)] armed
    before the call, for the sites that pass [signal: controller.signal];
    [None] for the sites that call [fetch] without a signal. *)
Definition abortTimer (site : RequestSite) : option Z :=
  match site with
  | FetchProducts | FetchProductDetails | FetchPricingCalculation =>
      Some TIMEOUT_MS
  | DownloadQuote | RequestSample | HandleLoginSubmit
  | HandleRegisterSubmit | InitiatePayment | PollPaymentStatus => None
  end.

(** [await fetch(...)] at a site: the delay after which the await
    resumes and the result it resumes with, or [None] when it never
    resumes. A reply that would arrive at the very moment the abort
    timer fires is taken as aborted. *)
Definition awaitFetch (site : RequestSite) (reply : Reply)
  : option (Z * FetchResult) :=
  match abortTimer site, latency reply with
  | Some limit, Some d =>
      if d <? limit then Some (d, result reply) else Some (limit, Aborted)
  | Some limit, None => Some (limit, Aborted)
  | None, Some d => Some (d, result reply)
  | None, None => None
  end.

(** [response.ok] *)
Definition ok (code : Z) : bool := (200 <=? code) && (code <=? 299).

End Transport.

(* ================================================================== *)
(** ** The payment-status poller: [pollPaymentStatus] (script.js, lines
       1378-1436) *)
(* ================================================================== *)

Module Poller.

Import Transport.
Local Open Scope Z_scope.
Local Open Scope list_scope.

Definition maxAttempts : Z := 30.
Definition pollInterval : Z := 2000.

Definition declinedMessage : string := "Payment was declined".
Definition cancelledMessage : string := "Payment was cancelled".
Definition timeoutMessage : string :=
  "Payment confirmation timeout. Please check your M-Pesa inbox.".

(** Observable actions of a polling session. *)
Inductive Event :=
| Query (attempt : Z)
| PaymentSuccess (data : PaymentData)
| PaymentFailure (errorMessage : string)
| Countdown (timeLeft : Z)
| ConsoleError.

(** Events with the time, in milliseconds since [pollPaymentStatus] was
    called, at which they happen; oldest first. *)
Definition Log := list (Z * Event).

(** The status of the session in the sense of the specification. The
    source keeps no such variable: [outcome] below is ghost state written
    where the source calls [clearInterval]. *)
Inductive PollStatus := PENDING | SUCCESS | FAILED | CANCELLED | TIMEOUT.

(** An invocation of the interval callback suspended at [await fetch]. *)
Record Pending := {
  attempt : Z;
  settles : option (Z * FetchResult)
}.

Record State := {
  attempts : Z;
  timerActive : bool;
  nextTick : Z;
  inflight : list Pending;
  log : Log;
  outcome : PollStatus
}.

(** The replies of the payment-status endpoint, by attempt number. *)
Definition Network := Z -> Reply.

(** The state right after [setInterval(..., pollInterval)]: the first
    invocation is due one interval later. *)
Definition start : State :=
  {| attempts := 0; timerActive := true; nextTick := pollInterval;
     inflight := []; log := []; outcome := PENDING |}.

Definition emit (t : Z) (e : Event) (s : State) : State :=
  {| attempts := attempts s; timerActive := timerActive s;
     nextTick := nextTick s; inflight := inflight s;
     log := log s ++ [(t, e)]; outcome := outcome s |}.

(** [clearInterval(pollTimer)] *)
Definition clearInterval (verdict : PollStatus) (s : State) : State :=
  {| attempts := attempts s; timerActive := false;
     nextTick := nextTick s; inflight := inflight s;
     log := log s; outcome := verdict |}.

(** The timer fires (lines 1383-1397): [attempts++], then the callback
    runs up to [await fetch], which is called without a signal. *)
Definition tick (net : Network) (s : State) : State :=
  let k := attempts s + 1 in
  let now := nextTick s in
  {| attempts := k; timerActive := timerActive s;
     nextTick := now + pollInterval;
     inflight :=
       inflight s ++
       [{| attempt := k;
           settles :=
             match awaitFetch PollPaymentStatus (net k) with
             | Some (d, r) => Some (now + d, r)
             | None => None
             end |}];
     log := log s ++ [(now, Query k)]; outcome := outcome s |}.

(** [x || d] on a string: a missing field and the empty string are
    falsy. *)
Definition orDefault (x : option string) (d : string) : string :=
  match x with
  | Some (String c rest) => String c rest
  | _ => d
  end.

(** [data.status === name] *)
Definition statusIs (data : PaymentData) (name : string) : bool :=
  match status data with
  | Some s => String.eqb s name
  | None => false
  end.

(** The code after the [try]/[catch] (lines 1429-1433): stop polling
    after max attempts. [attempts] is the variable shared by all the
    invocations of the callback. *)
Definition afterTry (t : Z) (s : State) : State :=
  if maxAttempts <=? attempts s
  then emit t (PaymentFailure timeoutMessage) (clearInterval TIMEOUT s)
  else s.

(** The [catch] block, then the code after it. *)
Definition catch (t : Z) (s : State) : State :=
  afterTry t (emit t ConsoleError s).

(** The callback resumes at time [t] with the settled [fetch] (lines
    1399-1427). The page is assumed to have its countdown element, so
    that updating it does not throw. *)
Definition resume (t : Z) (r : FetchResult) (s : State) : State :=
  match r with
  | Responded code body =>
      if ok code then
        match body with
        | Some data =>
            if statusIs data "SUCCESS" then
              emit t (PaymentSuccess data) (clearInterval SUCCESS s)
            else if statusIs data "FAILED" then
              emit t (PaymentFailure (orDefault (error data) declinedMessage))
                   (clearInterval FAILED s)
            else if statusIs data "CANCELLED" then
              emit t (PaymentFailure cancelledMessage)
                   (clearInterval CANCELLED s)
            else
              afterTry t
                (emit t (Countdown (Z.max 0 (maxAttempts - attempts s))) s)
        | None => catch t s
        end
      else catch t s
  | Rejected | Aborted => catch t s
  end.

(** The suspended invocation that resumes first (the oldest one among
    those settling at the same time), with the others. *)
Fixpoint takeEarliest (ps : list Pending)
  : option (Z * FetchResult * list Pending) :=
  match ps with
  | [] => None
  | p :: rest =>
      match settles p, takeEarliest rest with
      | Some (t, r), Some (t', r', rest') =>
          if t <=? t' then Some (t, r, rest) else Some (t', r', p :: rest')
      | Some (t, r), None => Some (t, r, rest)
      | None, Some (t', r', rest') => Some (t', r', p :: rest')
      | None, None => None
      end
  end.

Definition setInflight (ps : list Pending) (s : State) : State :=
  {| attempts := attempts s; timerActive := timerActive s;
     nextTick := nextTick s; inflight := ps; log := log s;
     outcome := outcome s |}.

(** One turn of the event loop: the next timer tick or the next settled
    request, whichever is due first (the tick, when both are due at the
    same time); [None] when nothing is left to run. Clearing the
    interval stops the ticks and leaves the suspended invocations to
    resume when their requests settle. *)
Definition step (net : Network) (s : State) : option State :=
  match takeEarliest (inflight s) with
  | Some (t, r, rest) =>
      if timerActive s && (nextTick s <=? t)
      then Some (tick net s)
      else Some (resume t r (setInflight rest s))
  | None => if timerActive s then Some (tick net s) else None
  end.

Fixpoint runFrom (net : Network) (n : nat) (s : State) : State :=
  match n with
  | O => s
  | S n' =>
      match step net s with
      | Some s' => runFrom net n' s'
      | None => s
      end
  end.

(** The state of [pollPaymentStatus(checkoutRequestId)] after [n] turns
    of the event loop. *)
Definition run (net : Network) (n : nat) : State := runFrom net n start.

(** *** Reading a log *)

Definition isCallback (e : Event) : bool :=
  match e with
  | PaymentSuccess _ | PaymentFailure _ => true
  | _ => false
  end.

Definition callbacks (lg : Log) : Log :=
  filter (fun te => isCallback (snd te)) lg.

Definition isQuery (e : Event) : bool :=
  match e with
  | Query _ => true
  | _ => false
  end.

Definition queries (lg : Log) : Log :=
  filter (fun te => isQuery (snd te)) lg.

Definition queryTimes (lg : Log) : list Z := map fst (queries lg).

(** *** Sample replies *)

Definition body (st : string) (err : option string) : PaymentData :=
  {| status := Some st; error := err; order_id := Some "ORD-1";
     merchant_request_id := None |}.

Definition answer (d : Z) (st : string) : Reply :=
  {| latency := Some d; result := Responded 200 (Some (body st None)) |}.

Definition networkError (d : Z) : Reply :=
  {| latency := Some d; result := Rejected |}.

Definition unanswered : Reply :=
  {| latency := None; result := Rejected |}.

(** Immediate replies PENDING, PENDING, SUCCESS. *)
Definition twoPendingThenSuccess : Network :=
  fun k => if k =? 3 then answer 0 "SUCCESS" else answer 0 "PENDING".

(** The first reply takes 2.5 s; the payment has succeeded all along. *)
Definition slowFirst : Network :=
  fun k => if k =? 1 then answer 2500 "SUCCESS" else answer 100 "SUCCESS".

(** The payment succeeds at the thirtieth query, whose reply takes 2.2 s. *)
Definition slowLastSuccess : Network :=
  fun k => if k =? 30 then answer 2200 "SUCCESS" else answer 100 "PENDING".

(** The payment stays pending; the thirtieth reply takes 2.5 s. *)
Definition slowLastPending : Network :=
  fun k => if k =? 30 then answer 2500 "PENDING" else answer 100 "PENDING".

(** The payment stays pending; the request of attempt 29 fails after
    2.5 s. *)
Definition lateError : Network :=
  fun k => if k =? 29 then networkError 2500 else answer 100 "PENDING".

(** The payment stays pending; the request of attempt 5 fails. *)
Definition errorOnFive : Network :=
  fun k => if k =? 5 then networkError 300 else answer 100 "PENDING".

(** The first request is never answered. *)
Definition silentFirst : Network :=
  fun k => if k =? 1 then unanswered else answer 100 "PENDING".

(** Every request is answered PENDING after 100 ms. *)
Definition alwaysPending : Network := fun _ => answer 100 "PENDING".

(** *** Properties of a run *)

(** Classification of a settled request: the callback and the status of
    a terminal response, [None] for anything else (a pending payment, an
    HTTP error, a network failure). *)
Definition terminalOf (r : FetchResult) : option (Event * PollStatus) :=
  match r with
  | Responded code (Some data) =>
      if ok code then
        if statusIs data "SUCCESS" then Some (PaymentSuccess data, SUCCESS)
        else if statusIs data "FAILED" then
          Some (PaymentFailure (orDefault (error data) declinedMessage), FAILED)
        else if statusIs data "CANCELLED" then
          Some (PaymentFailure cancelledMessage, CANCELLED)
        else None
      else None
  | _ => None
  end.

Definition nonTerminal (r : Reply) : Prop := terminalOf (result r) = None.

(** A network failure or a response outside 200..299. *)
Definition failedRequest (r : Reply) : Prop :=
  result r = Rejected \/ exists code b, result r = Responded code b /\ ok code = false.

(** Each of the replies within the attempt budget arrives before the
    next tick is due. *)
Definition prompt (net : Network) : Prop :=
  forall k, 1 <= k <= maxAttempts ->
            exists d, latency (net k) = Some d /\ 0 <= d < pollInterval.

(** Nothing is left to run after [n] turns. *)
Definition finished (net : Network) (n : nat) : Prop :=
  step net (run net n) = None.

(** The run ends with the schedule cancelled and one callback, which is
    the last thing the session does. *)
Definition singleOutcome (net : Network) : Prop :=
  exists n pre t cb,
    finished net n /\ timerActive (run net n) = false /\
    log (run net n) = pre ++ [(t, cb)] /\
    isCallback cb = true /\ callbacks pre = [] /\
    (List.length (queries pre) <= 30)%nat.

(** The attempt counter stays within the budget and the status, once it
    has left PENDING, keeps its value. *)
Definition boundedAndMonotonic (net : Network) : Prop :=
  forall n,
    attempts (run net n) <= maxAttempts /\
    (outcome (run net n) <> PENDING ->
     forall m, (n <= m)%nat -> outcome (run net m) = outcome (run net n)).

Definition firstThirtyNonTerminal (net : Network) : Prop :=
  forall k, 1 <= k <= maxAttempts -> nonTerminal (net k).

(** The queries of attempts 1 to [k], one per interval. *)
Definition queryLog (k : nat) : Log :=
  map (fun i => (pollInterval * Z.of_nat i, Query (Z.of_nat i))) (seq 1 k).

(** The run ends having issued the queries [qs] and called back once,
    with [cb] at time [t], as its last action. *)
Definition endsWith (net : Network) (qs : Log) (t : Z) (cb : Event) : Prop :=
  exists n pre,
    finished net n /\ timerActive (run net n) = false /\
    log (run net n) = pre ++ [(t, cb)] /\
    callbacks pre = [] /\ queries pre = qs.

(** The failed request of attempt [k], handled at turn [n], makes the
    session time out. *)
Definition errorTimesOut (net : Network) (n : nat) (k : Z) : Prop :=
  exists t,
    callbacks (log (run net (S n))) = [(t, PaymentFailure timeoutMessage)] /\
    attempts (run net (S n)) = k /\
    timerActive (run net (S n)) = false.

Definition cancelledWithReason : PaymentData :=
  body "CANCELLED" (Some "Request cancelled by user").

(** The turn after [n] resumes the invocation of attempt [k]. *)
Definition resumes (net : Network) (n : nat) (k : Z) : Prop :=
  exists t r rest,
    takeEarliest (inflight (run net n)) = Some (t, r, rest) /\
    (timerActive (run net n) && (nextTick (run net n) <=? t)) = false /\
    inflight (run net n) = {| attempt := k; settles := Some (t, r) |} :: rest.

(** The failed request of attempt [k], handled at turn [n], fires no
    callback, leaves the counter and the schedule alone, and the next
    turn is the tick of attempt [k + 1], one interval after tick [k]. *)
Definition errorIsSilent (net : Network) (n : nat) (k : Z) : Prop :=
  callbacks (log (run net (S n))) = callbacks (log (run net n)) /\
  attempts (run net (S n)) = k /\
  timerActive (run net (S n)) = true /\
  step net (run net (S n)) = Some (tick net (run net (S n))) /\
  nextTick (run net (S n)) = pollInterval * (k + 1).

(** The shapes of a session in which no two requests overlap. *)
Inductive Phase (net : Network) (s : State) : Prop :=
| Idle (k : nat) :
    attempts s = Z.of_nat k -> (k < 30)%nat ->
    timerActive s = true -> inflight s = [] ->
    nextTick s = pollInterval * (Z.of_nat k + 1) ->
    outcome s = PENDING -> callbacks (log s) = [] ->
    queries (log s) = queryLog k ->
    (forall i, 1 <= i <= Z.of_nat k -> nonTerminal (net i)) ->
    Phase net s
| Waiting (k : nat) (d : Z) :
    attempts s = Z.of_nat k -> (1 <= k <= 30)%nat ->
    timerActive s = true ->
    latency (net (Z.of_nat k)) = Some d -> 0 <= d < pollInterval ->
    inflight s = [{| attempt := Z.of_nat k;
                     settles := Some (pollInterval * Z.of_nat k + d,
                                      result (net (Z.of_nat k))) |}] ->
    nextTick s = pollInterval * (Z.of_nat k + 1) ->
    outcome s = PENDING -> callbacks (log s) = [] ->
    queries (log s) = queryLog k ->
    (forall i, 1 <= i < Z.of_nat k -> nonTerminal (net i)) ->
    Phase net s
| Done (k : nat) (d : Z) (pre : Log) (cb : Event) :
    attempts s = Z.of_nat k -> (1 <= k <= 30)%nat ->
    timerActive s = false -> inflight s = [] ->
    latency (net (Z.of_nat k)) = Some d ->
    log s = pre ++ [(pollInterval * Z.of_nat k + d, cb)] ->
    isCallback cb = true -> callbacks pre = [] ->
    queries pre = queryLog k ->
    (forall i, 1 <= i < Z.of_nat k -> nonTerminal (net i)) ->
    (terminalOf (result (net (Z.of_nat k))) = Some (cb, outcome s) \/
     (nonTerminal (net (Z.of_nat k)) /\ k = 30%nat /\
      cb = PaymentFailure timeoutMessage /\ outcome s = TIMEOUT)) ->
    Phase net s.

(** Turns left before a session without overlap is over. *)
Definition turnsLeft (s : State) : nat :=
  if timerActive s
  then 2 * (30 - Z.to_nat (attempts s)) + List.length (inflight s)
  else 0.

End Poller.

(* ================================================================== *)
(** ** Form fields: validators and input formatters (script.js, lines
       757-779, 866-882, 1270-1282, 1608-1616) *)
(* ================================================================== *)

Module Forms.

Definition code (c : ascii) : nat := nat_of_ascii c.

(** The character class [0-9]. *)
Definition isDigit (c : ascii) : bool :=
  (48 <=? code c)%nat && (code c <=? 57)%nat.

(** The character class [A-Z0-9]. *)
Definition isUpperAlnum (c : ascii) : bool :=
  isDigit c || ((65 <=? code c)%nat && (code c <=? 90)%nat).

(** ASCII letters of either case, and digits. *)
Definition isAlnum (c : ascii) : bool :=
  isUpperAlnum c || ((97 <=? code c)%nat && (code c <=? 122)%nat).

(** Whitespace removed by [trim], among the ASCII characters: tab, line
    feed, vertical tab, form feed, carriage return and space. *)
Definition isWhite (c : ascii) : bool :=
  ((9 <=? code c)%nat && (code c <=? 13)%nat) || (code c =? 32)%nat.

Definition isAsciiChar (c : ascii) : bool := (code c <? 128)%nat.

Fixpoint all (p : ascii -> bool) (s : string) : bool :=
  match s with
  | EmptyString => true
  | String c rest => p c && all p rest
  end.

(** The strings on which the ASCII models of [toUpperCase] and [trim]
    below agree with JavaScript. *)
Definition isAscii (s : string) : bool := all isAsciiChar s.

(** [s.replace(re, '')] with the global flag, where [re] matches every
    character outside the class [p]. *)
Fixpoint keep (p : ascii -> bool) (s : string) : string :=
  match s with
  | EmptyString => EmptyString
  | String c rest => if p c then String c (keep p rest) else keep p rest
  end.

(** [re.test(s)] for the anchored pattern of exactly [n] characters of
    the class [p]. *)
Fixpoint exactly (p : ascii -> bool) (n : nat) (s : string) : bool :=
  match n, s with
  | O, EmptyString => true
  | S n', String c rest => p c && exactly p n' rest
  | _, _ => false
  end.

Definition upperChar (c : ascii) : ascii :=
  if (97 <=? code c)%nat && (code c <=? 122)%nat
  then ascii_of_nat (code c - 32) else c.

(** [String.prototype.toUpperCase] on ASCII strings. *)
Fixpoint toUpperCase (s : string) : string :=
  match s with
  | EmptyString => EmptyString
  | String c rest => String (upperChar c) (toUpperCase rest)
  end.

Fixpoint trimStart (s : string) : string :=
  match s with
  | EmptyString => EmptyString
  | String c rest => if isWhite c then trimStart rest else s
  end.

Fixpoint trimEnd (s : string) : string :=
  match s with
  | EmptyString => EmptyString
  | String c rest =>
      match trimEnd rest with
      | EmptyString => if isWhite c then EmptyString else String c EmptyString
      | String d rest' => String c (String d rest')
      end
  end.

(** [String.prototype.trim] on ASCII strings. *)
Definition trim (s : string) : string := trimEnd (trimStart s).

(** [validatePhone] (line 757) and [validatePhoneNumber] (line 1270):
    the same pattern of nine digits. *)
Definition validatePhone (phone : string) : bool := exactly isDigit 9 phone.

Definition validatePhoneNumber (phone : string) : bool :=
  exactly isDigit 9 phone.

(** [validateKraPin] (line 767) *)
Definition validateKraPin (pin : string) : bool :=
  exactly isUpperAlnum 9 (toUpperCase pin).

(** [validateBusinessName] (line 777) *)
Definition validateBusinessName (name : string) : bool :=
  (3 <=? String.length (trim name))%nat
  && (String.length (trim name) <=? 100)%nat.

(** [if (value.length > 9) value = value.slice(0, 9)] *)
Definition limit9 (value : string) : string :=
  if (9 <? String.length value)%nat then substring 0 9 value else value.

(** [formatPhoneInput] (line 866), also the input listener of the
    checkout phone field (line 1608): the new value of the field. *)
Definition formatPhoneInput (value : string) : string :=
  limit9 (keep isDigit value).

(** [formatPinInput] (line 877) *)
Definition formatPinInput (value : string) : string :=
  limit9 (keep isUpperAlnum (toUpperCase value)).

(** [formatPhoneNumber] (line 1280) and the template of the auth forms
    (lines 911 and 1004). *)
Definition formatPhoneNumber (phone : string) : string := "254" ++ phone.

End Forms.

From Stdlib Require Import DecimalString.

(* ================================================================== *)
(** ** Web storage and the user session (script.js, lines 719-750 and
       1513-1520) *)
(* ================================================================== *)

Module WebStorage.

(** A storage area: [getItem] gives [None] (null) for a missing key. *)
Definition Storage := string -> option string.

Definition noItems : Storage := fun _ => None.

Definition getItem (key : string) (area : Storage) : option string :=
  area key.

Definition setItem (key value : string) (area : Storage) : Storage :=
  fun k => if String.eqb k key then Some value else area k.

Definition removeItem (key : string) (area : Storage) : Storage :=
  fun k => if String.eqb k key then None else area k.

(** The two areas of the page. *)
Record Browser := {
  localStorage : Storage;
  sessionStorage : Storage
}.

(** [if (x)] on a storage item: null and the empty string are falsy. *)
Definition truthy (x : option string) : bool :=
  match x with
  | Some (String _ _) => true
  | _ => false
  end.

(** [a || b] on storage items. *)
Definition orItem (a b : option string) : option string :=
  if truthy a then a else b.

(** The string [setItem] stores for a value that may be missing. *)
Definition toStr (x : Html.JsText) : string :=
  match x with
  | Html.JsUndefined => "undefined"
  | Html.JsNull => "null"
  | Html.JsStr s => s
  end.

(** [checkUserSession] (line 719) *)
Definition checkUserSession (b : Browser) : option string :=
  orItem (getItem "user_id" (localStorage b))
         (getItem "user_id" (sessionStorage b)).

(** [saveUserSession] (line 728); [userDataJson] is
    [JSON.stringify(userData)]. *)
Definition saveUserSession (userId : Html.JsText) (userDataJson : string)
           (b : Browser) : Browser :=
  {| localStorage :=
       setItem "user_data" userDataJson
               (setItem "user_id" (toStr userId) (localStorage b));
     sessionStorage := setItem "user_id" (toStr userId) (sessionStorage b) |}.

(** [clearUserSession] (line 746) *)
Definition clearUserSession (b : Browser) : Browser :=
  {| localStorage :=
       removeItem "user_data" (removeItem "user_id" (localStorage b));
     sessionStorage := removeItem "user_id" (sessionStorage b) |}.

(** [getUserId] (line 1513): the id and the storage afterwards. [now] is
    [Date.now()] in decimal and [rand] the nine characters taken from
    [Math.random().toString(36)]. *)
Definition getUserId (now rand : string) (b : Browser) : string * Browser :=
  match getItem "user_id" (sessionStorage b) with
  | Some (String c rest) => (String c rest, b)
  | _ =>
      let userId := "user_" ++ now ++ "_" ++ rand in
      (userId,
       {| localStorage := localStorage b;
          sessionStorage := setItem "user_id" userId (sessionStorage b) |})
  end.

Definition freshBrowser : Browser :=
  {| localStorage := noItems; sessionStorage := noItems |}.

(** A new tab of a logged-in user: the id is in localStorage only. *)
Definition newTab : Browser :=
  {| localStorage := setItem "user_id" "U-17" noItems;
     sessionStorage := noItems |}.

End WebStorage.

(* ================================================================== *)
(** ** Login and registration: [handleLoginSubmit] (lines 888-963) and
       [handleRegisterSubmit] (lines 969-1057) *)
(* ================================================================== *)

Module Auth.

Import Forms WebStorage.
Local Open Scope Z_scope.

(** The body of the POST to [/webhook/auth], without its timestamp. *)
Record AuthRequest := {
  action : string;
  business_name : option string;
  phone_number : string;
  kra_pin : string
}.

(** What a submit handler does with the form: show an error and return,
    or go on to send a request. *)
Inductive Validation :=
| Invalid (message : string)
| Valid (request : AuthRequest).

(** The validation part of [handleLoginSubmit]. *)
Definition loginRequest (phoneValue pinValue : string) : Validation :=
  let phone := trim phoneValue in
  let pin := trim pinValue in
  if negb (validatePhone phone) then
    Invalid "Invalid phone number format (9 digits required)"
  else if negb (validateKraPin pin) then
    Invalid "Invalid KRA PIN format (A1234567B)"
  else
    Valid {| action := "login"; business_name := None;
             phone_number := formatPhoneNumber phone; kra_pin := pin |}.

(** The validation part of [handleRegisterSubmit]. *)
Definition registerRequest (businessValue phoneValue pinValue : string)
           (termsChecked : bool) : Validation :=
  let businessName := trim businessValue in
  let phone := trim phoneValue in
  let pin := trim pinValue in
  if negb (validateBusinessName businessName) then
    Invalid "Business name must be 3-100 characters"
  else if negb (validatePhone phone) then
    Invalid "Invalid phone number format (9 digits required)"
  else if negb (validateKraPin pin) then
    Invalid "Invalid KRA PIN format (A1234567B)"
  else if negb termsChecked then
    Invalid "Please accept the terms and conditions"
  else
    Valid {| action := "register"; business_name := Some businessName;
             phone_number := formatPhoneNumber phone; kra_pin := pin |}.

(** The JSON body of the reply of [/webhook/auth]. *)
Record AuthData := {
  success : bool;
  message : option string;
  user_id : Html.JsText;
  reply_business_name : option string
}.

(** How the request settles: [fetch] rejects with an error message, or
    a response arrives whose body parses ([inl]) or whose [json()]
    rejects with an error message ([inr]). *)
Inductive AuthReply :=
| Unreachable (errorMessage : string)
| Replied (code : Z) (parsed : AuthData + string).

(** The object handed to [saveUserSession]. *)
Record UserData := {
  phone : string;
  user_business_name : option string;
  user_kra_pin : string
}.

(** What the handler ends with: the session saved and the success
    banner, or the error shown on the form. *)
Inductive AuthResult :=
| SignedIn (b : Browser)
| Refused (shown : string) (b : Browser).

(** [x || d] on a string: a missing value and the empty string are
    falsy. *)
Definition orText (x : option string) (d : string) : string :=
  match x with
  | Some (String c rest) => String c rest
  | _ => d
  end.

(** The number in a template literal. *)
Definition decimal (n : Z) : string := NilZero.string_of_int (Z.to_int n).

Section Json.

(** [JSON.stringify] on the user data. *)
Variable stringify : UserData -> string.

(** The part of a submit handler after [await fetch]: [prefix] and
    [failed] are the texts of the handler, [catchDefault] the fallback of
    its [catch] block, [savedName] the business name it saves. *)
Definition settle (prefix failed catchDefault : string)
           (savedName : AuthData -> option string)
           (request : AuthRequest) (reply : AuthReply) (b : Browser)
  : AuthResult :=
  match reply with
  | Unreachable errorMessage =>
      Refused (orText (Some errorMessage) catchDefault) b
  | Replied code parsed =>
      if Transport.ok code then
        match parsed with
        | inr errorMessage =>
            Refused (orText (Some errorMessage) catchDefault) b
        | inl data =>
            if success data then
              SignedIn
                (saveUserSession (user_id data)
                   (stringify {| phone := phone_number request;
                                 user_business_name := savedName data;
                                 user_kra_pin := kra_pin request |})
                   b)
            else
              Refused (orText (Some (orText (message data) failed))
                              catchDefault) b
        end
      else
        Refused (orText (Some (prefix ++ decimal code)) catchDefault) b
  end.

(** [handleLoginSubmit] after its request is sent. *)
Definition loginSettles (request : AuthRequest) :=
  settle "Auth error: " "Login failed"
         "Login failed. Please check your credentials."
         reply_business_name request.

(** [handleRegisterSubmit] after its request is sent. *)
Definition registerSettles (request : AuthRequest) :=
  settle "Registration error: " "Registration failed"
         "Registration failed. Please try again."
         (fun _ => business_name request) request.

(** A submit of the login form, from the field values to the end. *)
Definition handleLoginSubmit (phoneValue pinValue : string)
           (reply : AuthReply) (b : Browser) : AuthResult :=
  match loginRequest phoneValue pinValue with
  | Invalid message => Refused message b
  | Valid request => loginSettles request reply b
  end.

Definition handleRegisterSubmit (businessValue phoneValue pinValue : string)
           (termsChecked : bool) (reply : AuthReply) (b : Browser)
  : AuthResult :=
  match registerRequest businessValue phoneValue pinValue termsChecked with
  | Invalid message => Refused message b
  | Valid request => registerSettles request reply b
  end.

End Json.

(** A reply that accepts the login of user U-17. *)
Definition welcome : AuthReply :=
  Replied 200 (inl {| success := true; message := None;
                      user_id := Html.JsStr "U-17";
                      reply_business_name := Some "Acme Traders" |}).

(** The storage an [AuthResult] leaves. *)
Definition browserOf (r : AuthResult) : Browser :=
  match r with
  | SignedIn b => b
  | Refused _ b => b
  end.

Definition signedIn (r : AuthResult) : bool :=
  match r with
  | SignedIn _ => true
  | Refused _ _ => false
  end.

End Auth.

(* ================================================================== *)
(** ** Product page: navigation (lines 279-286, 336-343), quantity
       handlers (lines 1620-1645) and pricing (lines 390-428, 540-570) *)
(* ================================================================== *)

Module Detail.

Local Open Scope Z_scope.
Local Open Scope list_scope.

(** [s.split('/')] *)
Fixpoint split (s : string) : list string :=
  match s with
  | EmptyString => [EmptyString]
  | String c rest =>
      if Ascii.eqb c "/" then EmptyString :: split rest
      else match split rest with
           | part :: parts => String c part :: parts
           | [] => [String c EmptyString]
           end
  end.

(** A string without a slash. *)
Definition noSlash (s : string) : bool :=
  Forms.all (fun c => negb (Ascii.eqb c "/")) s.

(** [parts.indexOf(x)], [None] for -1. *)
Fixpoint indexOf (x : string) (parts : list string) : option nat :=
  match parts with
  | [] => None
  | part :: rest =>
      if String.eqb part x then Some O
      else match indexOf x rest with
           | Some i => Some (S i)
           | None => None
           end
  end.

(** [getProductIdFromUrl] (line 336), from [window.location.pathname]. *)
Definition getProductIdFromUrl (pathname : string) : option string :=
  let pathParts := split pathname in
  match indexOf "product" pathParts with
  | Some productIndex =>
      match nth_error pathParts (productIndex + 1) with
      | Some (String c rest) => Some (String c rest)
      | _ => None
      end
  | None => None
  end.

(** The directory of a path: everything up to its last slash. *)
Definition directory (pathname : string) : string :=
  String.concat EmptyString
    (map (fun part => (part ++ "/")%string) (removelast (split pathname))).

(** The reference that [navigateToProduct] assigns to
    [window.location.href] (line 285): the id is pasted as it is, with
    no encoding. *)
Definition productLink (productId : string) : string :=
  ("product-detail.html?product_id=" ++ productId)%string.

(** The path of a relative reference: its characters before the first
    question mark or hash. What follows is the query and the fragment,
    which the browser may re-encode or cut and which are not modelled. *)
Fixpoint pathOf (reference : string) : string :=
  match reference with
  | EmptyString => EmptyString
  | String c rest =>
      if (Ascii.eqb c "?" || Ascii.eqb c "#")%bool then EmptyString
      else String c (pathOf rest)
  end.

(** [navigateToProduct] (line 279): [window.location.pathname] of the
    page the browser requests, the path of the reference resolved
    against the directory of the current page; [None] when the id is
    falsy and nothing is loaded. *)
Definition navigateToProduct (pathname : string) (productId : option string)
  : option string :=
  match productId with
  | Some (String c rest) =>
      Some (directory pathname ++ pathOf (productLink (String c rest)))%string
  | _ => None
  end.

(** A JavaScript number that may be NaN ([None]). *)
Definition Num := option Z.

(** [x || d] on a number: NaN, undefined and 0 are falsy. *)
Definition orNum (x : Num) (d : Z) : Z :=
  match x with
  | Some 0 | None => d
  | Some n => n
  end.

(** The globals and the quantity field of the product page. The field
    is kept as the number [parseInt] reads from it. *)
Record Page := {
  currentProductId : option string;
  minOrderQuantity : Num;
  quantityInput : Num
}.

(** What [updatePricing] ends up doing. *)
Inductive Pricing :=
| MoqWarning
| PriceError
| PriceCheck (productId : string) (quantity : Z).

(** The guard of [fetchPricingCalculation] (line 392): the request is
    sent, or an error is thrown before it. *)
Definition fetchPricingCalculation (productId : option string) (quantity : Z)
  : Pricing :=
  match productId with
  | Some (String c rest) =>
      if (quantity =? 0) || (quantity <? 1) then PriceError
      else PriceCheck (String c rest) quantity
  | _ => PriceError
  end.

(** [updatePricing] (line 540) up to the request. *)
Definition updatePricing (page : Page) (productId : option string)
           (quantity : Z) : Pricing :=
  let moq := orNum (minOrderQuantity page) 1 in
  if quantity <? moq then MoqWarning
  else fetchPricingCalculation productId quantity.

Definition setQuantity (value : Num) (page : Page) : Page :=
  {| currentProductId := currentProductId page;
     minOrderQuantity := minOrderQuantity page;
     quantityInput := value |}.

(** The [change] listener of the quantity field (line 1620). *)
Definition onQuantityChange (page : Page) : Page * Pricing :=
  let quantity := orNum (quantityInput page) 1 in
  let moq := orNum (minOrderQuantity page) 1 in
  if quantity <? moq then
    (setQuantity (Some moq) page,
     updatePricing page (currentProductId page) moq)
  else
    (page, updatePricing page (currentProductId page) quantity).

(** The double nearest to an integer, ties going to the even
    significand: what an addition or subtraction of doubles returns for
    the exact result [z]. Integers up to 2^53 in magnitude are doubles;
    beyond, a double has 53 significant bits. (No overflow: the handlers
    below apply it to a double plus or minus one.) *)
Definition toDouble (z : Z) : Z :=
  let a := Z.abs z in
  if a <=? 2 ^ 53 then z
  else
    let e := Z.log2 a - 52 in
    let q := a / 2 ^ e in
    let r := a mod 2 ^ e in
    let half := 2 ^ (e - 1) in
    let up := (half <? r) || ((r =? half) && Z.odd q) in
    Z.sgn z * ((if up then q + 1 else q) * 2 ^ e).

(** The click listener of the plus button (line 1633):
    [parseInt(input.value) + 1] is an addition of doubles. *)
Definition onIncrease (page : Page) : Page * Pricing :=
  onQuantityChange
    (setQuantity (option_map (fun v => toDouble (v + 1)) (quantityInput page))
                 page).

(** The click listener of the minus button (line 1639):
    [parseInt(input.value) - 1] is a subtraction of doubles, and
    [Math.max] of a number and NaN is NaN. *)
Definition onDecrease (page : Page) : Page * Pricing :=
  let moq := orNum (minOrderQuantity page) 1 in
  onQuantityChange
    (setQuantity (option_map (fun v => Z.max moq (toDouble (v - 1)))
                             (quantityInput page))
                 page).

(** [renderProductDetails] (lines 490-498) on the page state: the MOQ of
    the product, 1 when it has none, is stored and written into the
    quantity field. *)
Definition renderProductDetails (productMoq : Num) (page : Page) : Page :=
  let moq := orNum productMoq 1 in
  {| currentProductId := currentProductId page;
     minOrderQuantity := Some moq;
     quantityInput := Some moq |}.

(** [initializeProductDetail] (lines 451-459) once the product is
    fetched: the globals are set, the details rendered, and the initial
    pricing requested for quantity 1. *)
Definition initializeProductDetail (productId : string) (productMoq : Num)
  : Page * Pricing :=
  let page :=
    renderProductDetails productMoq
      {| currentProductId := Some productId; minOrderQuantity := None;
         quantityInput := None |} in
  (page, updatePricing page (Some productId) 1).

(** The page of product P-100, minimum order 5, with 7 in the field. *)
Definition samplePage : Page :=
  {| currentProductId := Some "P-100"%string; minOrderQuantity := Some 5;
     quantityInput := Some 7 |}.

(** The same page as it opens: the field holds the minimum. *)
Definition samplePageAtOpen : Page :=
  {| currentProductId := Some "P-100"%string; minOrderQuantity := Some 5;
     quantityInput := Some 5 |}.

End Detail.

(* ================================================================== *)
(** ** Marketplace page: [fetchProducts] (lines 52-108) and
       [renderProducts] (lines 113-130) *)
(* ================================================================== *)

Module Marketplace.

Import Catalog Transport.
Local Open Scope Z_scope.

(** What the page shows: the spinner, the grid of cards, or the empty
    state with a message. *)
Inductive View :=
| Loading
| Grid (cards : list Product)
| EmptyState (message : string).

Record Market := {
  store : Store;
  view : View
}.

(** An element of [data.products]: the product, and whether
    [createProductCard] completes on it. It throws, for instance, when a
    field it hands to [escapeHtml] is a truthy value that is not a
    string, such as a numeric [product_id]. *)
Record Card := {
  product : Product;
  renders : bool
}.

(** How [response.json()] settles, once the response has arrived:
    [bodyLatency = None] is a body that never completes; [products] is
    [data.products] when the body parses and that field is an array. *)
Record Body := {
  bodyLatency : option Z;
  products : option (list Card)
}.

(** [renderProducts] *)
Definition renderProducts (st : Store) : View :=
  match filteredProducts st with
  | [] => EmptyState "No products match your search."
  | cards => Grid cards
  end.

Definition showEmptyState (message : string) (m : Market) : Market :=
  {| store := store m; view := EmptyState message |}.

Definition loadFailed : string :=
  "Failed to load products. Please try again later.".

(** Lines 91-93 of [fetchProducts] and their way into its [catch]: both
    lists are assigned first; [renderProducts] then runs inside the
    [try], so that a card that throws leaves the new lists in place
    under the message of the [catch]. *)
Definition loaded (cards : list Card) (m : Market) : Market :=
  let received := map product cards in
  let st := {| allProducts := received; filteredProducts := received;
               activeCategory := activeCategory (store m);
               searchQuery := searchQuery (store m) |} in
  {| store := st;
     view := if forallb renders cards then renderProducts st
             else EmptyState loadFailed |}.

(** [fetchProducts]: the time at which the spinner is hidden and the
    page then, or [None] when the function never gets that far. The
    abort timer is cleared as soon as [fetch] resolves, before the body
    is read. *)
Definition fetchProducts (reply : Reply) (body : Body) (m : Market)
  : option (Z * Market) :=
  match awaitFetch FetchProducts reply with
  | None => None
  | Some (t, Aborted) =>
      Some (t, showEmptyState "Request timed out. Please try again." m)
  | Some (t, Rejected) => Some (t, showEmptyState loadFailed m)
  | Some (t, Responded code _) =>
      if ok code then
        match bodyLatency body with
        | None => None
        | Some d =>
            match products body with
            | Some cards => Some (t + d, loaded cards m)
            | None => Some (t + d, showEmptyState loadFailed m)
            end
        end
      else Some (t, showEmptyState loadFailed m)
  end.

Definition timedOut : string := "Request timed out. Please try again.".

Definition noMatch : string := "No products match your search.".

(** A request that is never answered, a response that arrives after
    120 ms, and a body that never completes. *)
Definition unansweredRequest : Reply :=
  {| latency := None; result := Rejected |}.

Definition quickHeaders : Reply :=
  {| latency := Some 120; result := Responded 200 None |}.

Definition stalled : Body := {| bodyLatency := None; products := None |}.

(** A body that completes 30 ms after the response, with one product
    whose card fails to render. *)
Definition unrenderable : Body :=
  {| bodyLatency := Some 30;
     products := Some [{| product := widget; renders := false |}] |}.

(** A page that has just started loading. *)
Definition opening : Market :=
  {| store := {| allProducts := []; filteredProducts := [];
                 activeCategory := "all"; searchQuery := EmptyString |};
     view := Loading |}.

End Marketplace.

(* ================================================================== *)
(** ** Checkout page: the cart in storage (lines 1146-1166, 1447-1448),
       [initializeCheckout] (lines 1171-1193) and [initiatePayment]
       (lines 1287-1372) *)
(* ================================================================== *)

Module CheckoutFlow.

Import Forms WebStorage Checkout.
Local Open Scope Z_scope.

(** The storage effect of [saveCartToSession]; [cartJson] is
    [JSON.stringify(cart)]. *)
Definition saveCartToSession (cartJson : string) (b : Browser) : Browser :=
  {| localStorage := localStorage b;
     sessionStorage := setItem "cart" cartJson (sessionStorage b) |}.

(** The storage effect of [handlePaymentSuccess]. *)
Definition clearCart (b : Browser) : Browser :=
  {| localStorage := removeItem "cart" (localStorage b);
     sessionStorage := removeItem "cart" (sessionStorage b) |}.

(** What the checkout page becomes: an error message in place of the
    form, or the form with the globals [window.orderTotal] and
    [window.cartItems] set. *)
Inductive CheckoutPage :=
| CheckoutError (message : string)
| Ready (orderTotal : PrimFloat.float) (cartItems : list CartItem).

(** The body of the reply of [/webhook/checkout], reduced to its
    [checkout_request_id]; [None] when the body does not parse or lacks
    the field. *)
Inductive CheckoutReply :=
| CheckoutRejected
| CheckoutResponded (code : Z) (checkout_request_id : option string).

(** The numbers of the payload of [/webhook/checkout]: the amount
    ([None] where [JSON.stringify] writes null) and, for each cart item,
    its quantity, unit price and total. *)
Record Payload := {
  payer_id : string;
  payer_phone : string;
  amount : option Z;
  cart_items :
    list (option PrimFloat.float * option PrimFloat.float * PrimFloat.float)
}.

(** How a submit of the payment form ends. *)
Inductive PaymentStart :=
| PhoneError (message : string)
| TermsAlert (message : string)
| PaymentAlert (message : string)
| Polling (checkoutRequestId : string) (payload : Payload).

(** [initiatePayment]; [userId] is the result of [getUserId()]. *)
Definition initiatePayment (phoneValue : string) (termsChecked : bool)
           (userId : string) (orderTotal : PrimFloat.float)
           (cartItems : list CartItem)
           (reply : CheckoutReply) : PaymentStart :=
  let phone := trim phoneValue in
  if negb (validatePhoneNumber phone) then
    PhoneError "Please enter a valid 9-digit phone number"
  else if negb termsChecked then
    TermsAlert "Please agree to the terms and conditions"
  else
    let payload :=
      {| payer_id := userId;
         payer_phone := formatPhoneNumber phone;
         amount := Math_round orderTotal;
         cart_items :=
           map (fun item => (quantity item, final_price_kes item,
                             itemTotal item)) cartItems |} in
    match reply with
    | CheckoutRejected =>
        PaymentAlert "Failed to initiate payment. Please try again."
    | CheckoutResponded code id =>
        if Transport.ok code then
          match id with
          | Some (String c rest) => Polling (String c rest) payload
          | _ => PaymentAlert "Failed to initiate payment. Please try again."
          end
        else PaymentAlert "Failed to initiate payment. Please try again."
    end.

Section Json.

(** [JSON.parse] on the stored cart; [None] when it throws. *)
Variable parse : string -> option (list CartItem).

(** [getCartFromSession] (line 1146) *)
Definition getCartFromSession (b : Browser) : list CartItem :=
  match orItem (getItem "cart" (sessionStorage b))
               (getItem "cart" (localStorage b)) with
  | Some (String c rest) =>
      match parse (String c rest) with
      | Some cart => cart
      | None => []
      end
  | _ => []
  end.

(** [initializeCheckout] (line 1171) *)
Definition initializeCheckout (b : Browser) : CheckoutPage :=
  match getCartFromSession b with
  | [] => CheckoutError "Your cart is empty"
  | cart => Ready (calculateTotals cart) cart
  end.

(** A visit of the checkout page followed by a submit of its payment
    form; [None] when the page shows no form to submit. *)
Definition checkout (b : Browser) (phoneValue : string)
           (termsChecked : bool) (userId : string) (reply : CheckoutReply)
  : option PaymentStart :=
  match initializeCheckout b with
  | CheckoutError _ => None
  | Ready orderTotal cartItems =>
      Some (initiatePayment phoneValue termsChecked userId orderTotal
                            cartItems reply)
  end.

End Json.

(** A parser that knows one cart. *)
Definition parseSample (json : string) : option (list CartItem) :=
  if String.eqb json "[sample]" then Some [markedUpItem] else None.

(** A browser whose session holds that cart. *)
Definition withCart : Browser :=
  saveCartToSession "[sample]" freshBrowser.

End CheckoutFlow.

(* ================================================================== *)
(** ** Character classes used to state properties of [escapeHtml] and of
       the category filter *)
(* ================================================================== *)

Module Chars.

(** The five characters [escapeHtml] replaces. *)
Definition special (c : ascii) : bool :=
  match c with
  | "&"%char | "<"%char | ">"%char | "034"%char | "039"%char => true
  | _ => false
  end.

Definition plain (s : string) : bool := Forms.all (fun c => negb (special c)) s.

(** An ASCII capital letter. *)
Definition isCapital (c : ascii) : bool :=
  (65 <=? nat_of_ascii c)%nat && (nat_of_ascii c <=? 90)%nat.

Fixpoint hasCapital (s : string) : bool :=
  match s with
  | EmptyString => false
  | String c rest => isCapital c || hasCapital rest
  end.

(** The category chip Tools, written with a capital. *)
Definition capitalised : Catalog.Store :=
  {| Catalog.allProducts := [Catalog.widget; Catalog.anonymous];
     Catalog.filteredProducts := [Catalog.widget; Catalog.anonymous];
     Catalog.activeCategory := "Tools";
     Catalog.searchQuery := EmptyString |}.

(** A cart line whose quantity is zero. *)
Definition zeroQuantity : Checkout.CartItem := Checkout.unorderedItem.

(** The same cart line with another quantity. *)
Definition withQuantity (q : option PrimFloat.float)
           (item : Checkout.CartItem) : Checkout.CartItem :=
  {| Checkout.final_price_kes := Checkout.final_price_kes item;
     Checkout.quantity := q;
     Checkout.supplier_cost := Checkout.supplier_cost item;
     Checkout.international_freight := Checkout.international_freight item;
     Checkout.kra_duty := Checkout.kra_duty item;
     Checkout.vat := Checkout.vat item;
     Checkout.platform_fee := Checkout.platform_fee item;
     Checkout.markup := Checkout.markup item |}.

End Chars.

(* ================================================================== *)
(** ** Properties *)
(* ================================================================== *)

Module HtmlFacts.
Import Html.

Lemma occurs_app c s t : occurs c (s ++ t) <-> occurs c s \/ occurs c t.
Proof.
  induction s as [|d s IH]; simpl.
  - tauto.
  - rewrite IH. tauto.
Qed.

Lemma escapeChar_clean c d : occurs d (escapeChar c) -> ~ raw d.
Proof.
  unfold raw, dquote, squote.
  destruct c as [[] [] [] [] [] [] [] []]; simpl; intros H;
    repeat (destruct H as [H|H]; [subst d; intuition discriminate|]);
    try contradiction.
Qed.

Lemma replaceAll_clean s d : occurs d (replaceAll s) -> ~ raw d.
Proof.
  induction s as [|c s IH]; simpl.
  - tauto.
  - rewrite occurs_app. intros [H|H].
    + eapply escapeChar_clean; eauto.
    + auto.
Qed.

Lemma escapeHtml_str s : escapeHtml (JsStr s) = replaceAll s.
Proof. destruct s; reflexivity. Qed.

(** C8: for every input string, the result of [escapeHtml] contains no
    raw less-than, greater-than, double-quote or single-quote character,
    because every occurrence of one of the five special characters is
    replaced by its entity and every other character is copied; for the
    falsy inputs (empty string, null, undefined) the result is the empty
    string. *)
Theorem escapeHtml_neutralises :
  (forall s c, raw c -> ~ occurs c (escapeHtml (JsStr s))) /\
  (forall c s, escapeHtml (JsStr (String c s))
               = (escapeChar c ++ escapeHtml (JsStr s))%string) /\
  (escapeChar "&" = "&amp;" /\ escapeChar "<" = "&lt;" /\
   escapeChar ">" = "&gt;" /\ escapeChar dquote = "&quot;" /\
   escapeChar squote = "&#039;") /\
  (forall c, c <> "&"%char -> ~ raw c -> escapeChar c = String c EmptyString) /\
  (forall text, falsy text = true -> escapeHtml text = EmptyString) /\
  (falsy (JsStr EmptyString) = true /\ falsy JsNull = true /\
   falsy JsUndefined = true).
Proof.
  split; [|split; [|split; [|split; [|split]]]].
  - intros s c Hraw Hocc. rewrite escapeHtml_str in Hocc.
    exact (replaceAll_clean _ _ Hocc Hraw).
  - intros c s. now rewrite !escapeHtml_str.
  - repeat split.
  - intros c Hamp Hraw. unfold raw, dquote, squote in Hraw.
    destruct c as [[] [] [] [] [] [] [] []]; try reflexivity;
      solve [exfalso; auto 6].
  - intros text H. unfold escapeHtml. now rewrite H.
  - repeat split.
Qed.

Lemma escapeHtml_neutralises_witness :
  raw "<"%char /\
  ~ occurs "<"%char (escapeHtml (JsStr "<b>Tom & Jerry</b>")) /\
  escapeHtml (JsStr "<b>Tom & Jerry</b>")
  = "&lt;b&gt;Tom &amp; Jerry&lt;/b&gt;" /\
  escapeHtml JsNull = EmptyString.
Proof.
  assert (Hraw : raw "<"%char) by (left; reflexivity).
  split; [exact Hraw|]. split.
  - exact (proj1 escapeHtml_neutralises "<b>Tom & Jerry</b>" "<"%char Hraw).
  - split; [reflexivity|].
    exact (proj1 (proj2 (proj2 (proj2 (proj2 escapeHtml_neutralises))))
             JsNull eq_refl).
Defined.

End HtmlFacts.

(* ------------------------------------------------------------------ *)

Module CatalogFacts.
Import Catalog.

Lemma andThen_true field test :
  andThen field test = true ->
  exists s, present field s /\ test s = true.
Proof.
  destruct field as [[|c rest]|]; simpl; try discriminate.
  intros H. exists (String c rest). repeat split; auto. discriminate.
Qed.

Lemma matchesSearch_sound st product :
  matchesSearch st product = true -> satisfiesSearch st product.
Proof.
  unfold matchesSearch, satisfiesSearch. intros H.
  apply orb_true_iff in H. destruct H as [H|H].
  - apply orb_true_iff in H. destruct H as [H|H].
    + left. apply andThen_true in H. destruct H as (n & Hp & Ht). eauto.
    + right; left. apply andThen_true in H.
      destruct H as (n & Hp & Ht). eauto.
  - right; right. apply andThen_true in H.
    destruct H as (n & Hp & Ht). eauto.
Qed.

Lemma matchesSearch_nameless st product :
  nameless product -> matchesSearch st product = false.
Proof.
  intros (H1 & H2 & H3). unfold matchesSearch.
  now rewrite H1, H2, H3.
Qed.

(** C9: [filterProducts] leaves in [filteredProducts] only products of
    [allProducts], each of which has at least one of product_name,
    supplier_name and sku present and satisfying the search; a product
    with none of the three fields is excluded whatever the category and
    the query, in particular for category all and the empty query. *)
Theorem filterProducts_requires_searchable_field (st : Store) :
  (forall product,
      In product (filteredProducts (filterProducts st)) ->
      In product (allProducts st) /\ satisfiesSearch st product) /\
  (forall product,
      nameless product ->
      ~ In product (filteredProducts (filterProducts st))) /\
  allProducts (filterProducts st) = allProducts st.
Proof.
  split; [|split].
  - intros product H. simpl in H. apply filter_In in H.
    destruct H as [Hin H]. apply andb_true_iff in H.
    split; [exact Hin|]. apply matchesSearch_sound. tauto.
  - intros product Hn H. simpl in H. apply filter_In in H.
    destruct H as [_ H]. apply andb_true_iff in H.
    rewrite (matchesSearch_nameless st product Hn) in H.
    destruct H; discriminate.
  - reflexivity.
Qed.

Lemma filterProducts_requires_searchable_field_witness :
  activeCategory freshStore = "all" /\
  searchQuery freshStore = EmptyString /\
  filteredProducts (filterProducts freshStore) = [widget] /\
  (In widget (allProducts freshStore) /\ satisfiesSearch freshStore widget) /\
  ~ In anonymous (filteredProducts (filterProducts freshStore)).
Proof.
  split; [reflexivity|]. split; [reflexivity|]. split; [reflexivity|].
  split.
  - apply (proj1 (filterProducts_requires_searchable_field freshStore) widget).
    simpl. left. reflexivity.
  - apply (proj1 (proj2 (filterProducts_requires_searchable_field freshStore))
             anonymous).
    repeat split.
Defined.

End CatalogFacts.

(* ------------------------------------------------------------------ *)

Module CheckoutFacts.
Import PrimFloat Checkout.
Local Open Scope Q_scope.

Lemma exactAdd_val a b :
  exactAdd a b = true ->
  valueOf (PrimFloat.add a b) = Some (val (PrimFloat.add a b)) /\
  val (PrimFloat.add a b) == val a + val b.
Proof.
  unfold exactAdd, val.
  destruct (valueOf a) as [x|]; [|discriminate].
  destruct (valueOf b) as [y|]; [|discriminate].
  destruct (valueOf (PrimFloat.add a b)) as [z|]; [|discriminate].
  intros H. apply Qeq_bool_iff in H. split; [reflexivity|].
  symmetry. exact H.
Qed.

Lemma exactMul_val a b :
  exactMul a b = true -> val (PrimFloat.mul a b) == val a * val b.
Proof.
  unfold exactMul, val.
  destruct (valueOf a) as [x|]; [|discriminate].
  destruct (valueOf b) as [y|]; [|discriminate].
  destruct (valueOf (PrimFloat.mul a b)) as [z|]; [|discriminate].
  intros H. apply Qeq_bool_iff in H. symmetry. exact H.
Qed.

Lemma exactItem_worth acc item :
  exactItem acc item = true ->
  worth (addItem acc item) == worth acc + componentCost item.
Proof.
  unfold exactItem. cbv zeta. intros H.
  repeat (apply andb_true_iff in H; destruct H as [H ?]).
  unfold worth, addItem, componentCost. cbv zeta.
  cbn [subtotal shipping taxes fees].
  repeat match goal with
         | E : exactAdd _ _ = true |- _ =>
             apply exactAdd_val in E; destruct E as [_ E]
         | E : exactMul _ _ = true |- _ => apply exactMul_val in E
         end.
  repeat match goal with
         | E : val (PrimFloat.add _ _) == _ |- _ => rewrite E; clear E
         end.
  repeat match goal with
         | E : val (PrimFloat.mul _ _) == _ |- _ => rewrite E; clear E
         end.
  ring.
Qed.

Lemma exactGrand_worth t :
  exactGrand t = true ->
  valueOf (grand t) = Some (val (grand t)) /\ val (grand t) == worth t.
Proof.
  unfold exactGrand. intros H.
  apply andb_true_iff in H. destruct H as [H H3].
  apply andb_true_iff in H. destruct H as [H1 H2].
  apply exactAdd_val in H1, H2, H3.
  destruct H1 as [_ H1]. destruct H2 as [_ H2]. destruct H3 as [Hv H3].
  unfold grand, worth. split; [exact Hv|].
  rewrite H3, H2, H1. reflexivity.
Qed.

Lemma exactFrom_worth cart : forall acc,
  exactFrom acc cart = true ->
  valueOf (grand (fold_left addItem cart acc))
  = Some (val (grand (fold_left addItem cart acc))) /\
  val (grand (fold_left addItem cart acc)) == worth acc + componentSum cart.
Proof.
  induction cart as [|item cart IH]; intros acc H; cbn [exactFrom] in H.
  - destruct (exactGrand_worth acc H) as [Hv Hw]. cbn [fold_left].
    split; [exact Hv|]. rewrite Hw. cbn [componentSum fold_right]. ring.
  - apply andb_true_iff in H. destruct H as [Hitem Hrest].
    destruct (IH _ Hrest) as [Hv Hw]. cbn [fold_left].
    split; [exact Hv|]. rewrite Hw, (exactItem_worth _ _ Hitem).
    unfold componentSum. cbn [fold_right]. ring.
Qed.

Lemma calculateTotals_componentSum cart :
  exact cart = true ->
  valueOf (calculateTotals cart) = Some (val (calculateTotals cart)) /\
  val (calculateTotals cart) == componentSum cart.
Proof.
  unfold exact, calculateTotals, accumulate. intros H.
  destruct (exactFrom_worth cart noTotals H) as [Hv Hw].
  split; [exact Hv|]. rewrite Hw. unfold worth, noTotals.
  cbn [subtotal shipping taxes fees].
  change (val 0%float) with 0. ring.
Qed.

Lemma addItem_reprice acc item price margin :
  addItem acc (reprice price margin item) = addItem acc item.
Proof. reflexivity. Qed.

Lemma fold_reprice f cart : forall acc,
  fold_left addItem (map (fun item => reprice (fst (f item)) (snd (f item)) item) cart) acc
  = fold_left addItem cart acc.
Proof.
  induction cart as [|item cart IH]; intros acc; simpl.
  - reflexivity.
  - rewrite addItem_reprice. apply IH.
Qed.

Lemma orElse_one (x : option PrimFloat.float) :
  (x = None \/ exists q, x = Some q /\ falsy q = true) ->
  orElse x 1 = 1%float.
Proof.
  intros [->|(q & -> & Hq)]; [reflexivity|]. unfold orElse. now rewrite Hq.
Qed.

(** C10 (amended): for every cart the total of [calculateTotals] is the
    double-precision result of subtotal + shipping + taxes + fees, and
    the amount charged is that total rounded: the integer from half
    below the total up to, but not including, half above it. Whenever no
    addition or multiplication of the computation rounds, the total is
    exactly the
    sum over the items of (supplier_cost + international_freight +
    kra_duty + vat + platform_fee) times q, with 0 for a missing (or
    zero) component and with q the quantity of the item, or 1 when the
    quantity is missing or zero. The total does not depend on the items'
    final_price_kes or markup, and it can differ from the sum of the
    line totals final_price_kes times q shown in the order summary. *)
Theorem calculateTotals_sums_components :
  (forall cart,
      exact cart = true ->
      valueOf (calculateTotals cart) = Some (val (calculateTotals cart)) /\
      val (calculateTotals cart) == componentSum cart /\
      exists amount,
        paymentAmount cart = Some amount /\
        amount = Qfloor (val (calculateTotals cart) + (1 # 2))) /\
  (forall item q,
      quantity item = Some q -> falsy q = false ->
      orElse (quantity item) 1 = q) /\
  (forall item,
      (quantity item = None \/
       exists q, quantity item = Some q /\ falsy q = true) ->
      orElse (quantity item) 1 = 1%float) /\
  (forall f cart,
      calculateTotals
        (map (fun item => reprice (fst (f item)) (snd (f item)) item) cart)
      = calculateTotals cart) /\
  (exists cart,
      exact cart = true /\ ~ val (calculateTotals cart) == lineTotals cart) /\
  (forall cart total,
      valueOf (calculateTotals cart) = Some total ->
      exists amount,
        paymentAmount cart = Some amount /\
        inject_Z amount - (1 # 2) <= total /\
        total < inject_Z amount + (1 # 2)).
Proof.
  split; [|split; [|split; [|split; [|split]]]].
  - intros cart H. destruct (calculateTotals_componentSum cart H) as [Hv Hw].
    split; [exact Hv|]. split; [exact Hw|].
    exists (Qfloor (val (calculateTotals cart) + (1 # 2))).
    split; [|reflexivity]. unfold paymentAmount, Math_round. now rewrite Hv.
  - intros item q Hq Hf. rewrite Hq. unfold orElse. now rewrite Hf.
  - intros item H. now apply orElse_one.
  - intros f cart. unfold calculateTotals, accumulate.
    now rewrite fold_reprice.
  - exists [markedUpItem]. split; [vm_compute; reflexivity|].
    intros H. vm_compute in H. discriminate.
  - intros cart total Hv. exists (Qfloor (total + (1 # 2))).
    split; [unfold paymentAmount, Math_round; now rewrite Hv|].
    pose proof (Qfloor_le (total + (1 # 2))) as Hlo.
    pose proof (Qlt_floor (total + (1 # 2))) as Hhi.
    rewrite inject_Z_plus in Hhi. change (inject_Z 1) with 1 in Hhi.
    split; lra.
Qed.

Lemma calculateTotals_sums_components_witness :
  exact [markedUpItem] = true /\
  val (calculateTotals [markedUpItem]) == 2000 /\
  paymentAmount [markedUpItem] = Some 2000%Z /\
  lineTotals [markedUpItem] == 2300 /\
  orElse (quantity unorderedItem) 1 = 1%float.
Proof.
  assert (Hexact : exact [markedUpItem] = true) by (vm_compute; reflexivity).
  destruct (proj1 calculateTotals_sums_components [markedUpItem] Hexact)
    as (_ & Hsum & amount & Hpay & Hamount).
  split; [exact Hexact|]. split; [|split; [|split]].
  - rewrite Hsum. vm_compute. reflexivity.
  - rewrite Hpay, Hamount. vm_compute. reflexivity.
  - vm_compute. reflexivity.
  - apply (proj1 (proj2 (proj2 calculateTotals_sums_components))).
    right. exists 0%float. split; reflexivity.
Defined.

(** C10 as stated fails on two counts. The code charges one unit for an
    item whose quantity is 0, where the stated sum has the item times 0.
    And the code adds doubles: for five units with freight 4.68, duty
    14.66 and fee 2.16 the stated sum is exactly 107.5, which rounds to
    108, while the code stores 107.49999999999999 and charges 107. *)
Lemma calculateTotals_rounds_and_defaults :
  ~ val (calculateTotals [unorderedItem]) == statedSum [unorderedItem] /\
  (val (calculateTotals [unorderedItem]) == 1000 /\
   statedSum [unorderedItem] == 0) /\
  ~ val (calculateTotals [decimalItem]) == statedSum [decimalItem] /\
  (statedSum [decimalItem] == 215 # 2 /\
   Qfloor (statedSum [decimalItem] + (1 # 2)) = 108%Z /\
   calculateTotals [decimalItem] = 0x1.adfffffffffffp+6%float /\
   paymentAmount [decimalItem] = Some 107%Z /\
   exact [decimalItem] = false).
Proof.
  split; [intros H; vm_compute in H; discriminate|].
  split; [split; vm_compute; reflexivity|].
  split; [intros H; vm_compute in H; discriminate|].
  repeat split; vm_compute; reflexivity.
Qed.

End CheckoutFacts.

(* ------------------------------------------------------------------ *)

Module PollerFacts.
Import Transport Poller.
Local Open Scope Z_scope.
Local Open Scope list_scope.

(** *** Runs *)

Lemma runFrom_stuck net s n : step net s = None -> runFrom net n s = s.
Proof. destruct n; simpl; [reflexivity|]. intros H. now rewrite H. Qed.

Lemma runFrom_add net a : forall b s,
  runFrom net (a + b) s = runFrom net b (runFrom net a s).
Proof.
  induction a as [|a IH]; intros b s; simpl.
  - reflexivity.
  - destruct (step net s) as [s'|] eqn:E.
    + apply IH.
    + symmetry. now apply runFrom_stuck.
Qed.

Lemma run_S net n :
  run net (S n) = match step net (run net n) with
                  | Some s' => s'
                  | None => run net n
                  end.
Proof.
  unfold run. replace (S n) with (n + 1)%nat by lia.
  rewrite runFrom_add. simpl.
  destruct (step net (runFrom net n start)); reflexivity.
Qed.

Lemma finished_stable net n m :
  finished net n -> (n <= m)%nat -> run net m = run net n.
Proof.
  unfold finished, run. intros H Hle.
  replace m with (n + (m - n))%nat by lia.
  rewrite runFrom_add. now apply runFrom_stuck.
Qed.

Lemma finished_unique net n m :
  finished net n -> finished net m -> run net n = run net m.
Proof.
  intros Hn Hm. destruct (Nat.le_ge_cases n m) as [H|H].
  - symmetry. now apply finished_stable.
  - now apply finished_stable.
Qed.

(** *** Logs *)

Lemma callbacks_app a b : callbacks (a ++ b) = callbacks a ++ callbacks b.
Proof. apply filter_app. Qed.

Lemma queries_app a b : queries (a ++ b) = queries a ++ queries b.
Proof. apply filter_app. Qed.

Lemma queryLog_S k :
  queryLog (S k)
  = queryLog k ++ [(pollInterval * Z.of_nat (S k), Query (Z.of_nat (S k)))].
Proof. unfold queryLog. rewrite seq_S, map_app. reflexivity. Qed.

Lemma queryLog_length k : List.length (queryLog k) = k.
Proof. unfold queryLog. now rewrite length_map, length_seq. Qed.

(** *** The continuation after [await] *)

Lemma resume_cases t r s :
  match terminalOf r with
  | Some (cb, verdict) =>
      resume t r s = emit t cb (clearInterval verdict s) /\
      isCallback cb = true
  | None =>
      exists e, isCallback e = false /\ isQuery e = false /\
                resume t r s = afterTry t (emit t e s)
  end.
Proof.
  destruct r as [| |code [data|]]; cbn [terminalOf resume].
  - exists ConsoleError. repeat split.
  - exists ConsoleError. repeat split.
  - destruct (ok code).
    + destruct (statusIs data "SUCCESS"); [split; reflexivity|].
      destruct (statusIs data "FAILED"); [split; reflexivity|].
      destruct (statusIs data "CANCELLED"); [split; reflexivity|].
      eexists (Countdown _). repeat split.
    + exists ConsoleError. repeat split.
  - destruct (ok code); exists ConsoleError; repeat split.
Qed.

Lemma inflight_afterTry t s : inflight (afterTry t s) = inflight s.
Proof. unfold afterTry. destruct (maxAttempts <=? attempts s); reflexivity. Qed.

Lemma inflight_resume t r s : inflight (resume t r s) = inflight s.
Proof.
  pose proof (resume_cases t r s) as H.
  destruct (terminalOf r) as [[cb verdict]|].
  - destruct H as [-> _]. reflexivity.
  - destruct H as (e & _ & _ & ->). now rewrite inflight_afterTry.
Qed.

Lemma takeEarliest_keeps_unanswered p ps : forall t r rest,
  takeEarliest ps = Some (t, r, rest) ->
  settles p = None -> In p ps -> In p rest.
Proof.
  induction ps as [|q ps IH]; intros t r rest H Hnone Hin.
  - discriminate.
  - cbn [takeEarliest] in H.
    destruct (settles q) as [[tq rq]|] eqn:Eq;
      destruct (takeEarliest ps) as [[[t' r'] rest']|] eqn:E.
    + destruct (tq <=? t'); inversion H; subst; clear H.
      * destruct Hin as [->|Hin]; [congruence|exact Hin].
      * destruct Hin as [->|Hin]; [now left|right; eauto].
    + inversion H; subst; clear H.
      destruct Hin as [->|Hin]; [congruence|exact Hin].
    + inversion H; subst; clear H.
      destruct Hin as [->|Hin]; [now left|right; eauto].
    + discriminate.
Qed.

Lemma step_keeps_unanswered net p s s' :
  step net s = Some s' -> settles p = None ->
  In p (inflight s) -> In p (inflight s').
Proof.
  unfold step. intros H Hnone Hin.
  assert (Htick : In p (inflight (tick net s))).
  { unfold tick; cbn [inflight]. apply in_or_app. now left. }
  destruct (takeEarliest (inflight s)) as [[[t r] rest]|] eqn:E.
  - destruct (timerActive s && (nextTick s <=? t)); inversion H; subst.
    + exact Htick.
    + rewrite inflight_resume. cbn [inflight setInflight].
      eapply takeEarliest_keeps_unanswered; eauto.
  - destruct (timerActive s); inversion H; subst. exact Htick.
Qed.

Lemma runFrom_keeps_unanswered net p n : forall s,
  settles p = None -> In p (inflight s) -> In p (inflight (runFrom net n s)).
Proof.
  induction n as [|n IH]; intros s Hnone Hin; simpl.
  - exact Hin.
  - destruct (step net s) as [s'|] eqn:E; [|exact Hin].
    apply IH; [exact Hnone|]. eapply step_keeps_unanswered; eauto.
Qed.

(** *** Sessions without overlapping requests *)

Lemma phase_start net : Phase net start.
Proof.
  apply (Idle net start 0); try reflexivity; lia.
Qed.

Lemma step_idle net s :
  timerActive s = true -> inflight s = [] -> step net s = Some (tick net s).
Proof. unfold step. intros -> ->. reflexivity. Qed.

Lemma step_done net s :
  timerActive s = false -> inflight s = [] -> step net s = None.
Proof. unfold step. intros -> ->. reflexivity. Qed.

Lemma step_waiting net s a t r :
  inflight s = [{| attempt := a; settles := Some (t, r) |}] ->
  t < nextTick s ->
  step net s = Some (resume t r (setInflight [] s)).
Proof.
  unfold step. intros -> Hlt. cbn [takeEarliest settles].
  replace (nextTick s <=? t) with false by (symmetry; apply Z.leb_gt; lia).
  now rewrite andb_false_r.
Qed.

Lemma tick_waiting net s k :
  prompt net -> attempts s = Z.of_nat k -> (k < 30)%nat ->
  timerActive s = true -> inflight s = [] ->
  nextTick s = pollInterval * (Z.of_nat k + 1) ->
  outcome s = PENDING -> callbacks (log s) = [] ->
  queries (log s) = queryLog k ->
  (forall i, 1 <= i <= Z.of_nat k -> nonTerminal (net i)) ->
  Phase net (tick net s).
Proof.
  intros Hp Hatt Hk Htimer Hinfl Hnext Hout Hcb Hq Hnon.
  destruct (Hp (Z.of_nat (S k))) as (d & Hlat & Hd);
    [unfold maxAttempts; lia|].
  assert (E : attempts s + 1 = Z.of_nat (S k)) by lia.
  apply (Waiting net (tick net s) (S k) d); unfold tick;
    cbn [attempts timerActive nextTick inflight log outcome]; auto; try lia.
  - rewrite Hinfl, E, Hnext. unfold awaitFetch.
    cbn [abortTimer]. rewrite Hlat. cbn [app].
    replace (Z.of_nat k + 1) with (Z.of_nat (S k)) by lia. reflexivity.
  - rewrite callbacks_app, Hcb. reflexivity.
  - rewrite queries_app, Hq, queryLog_S, E, Hnext.
    replace (Z.of_nat k + 1) with (Z.of_nat (S k)) by lia. reflexivity.
  - intros i Hi. apply Hnon. lia.
Qed.

Lemma resume_phase net s k d :
  attempts s = Z.of_nat k -> (1 <= k <= 30)%nat ->
  timerActive s = true ->
  latency (net (Z.of_nat k)) = Some d -> 0 <= d < pollInterval ->
  nextTick s = pollInterval * (Z.of_nat k + 1) ->
  outcome s = PENDING -> callbacks (log s) = [] ->
  queries (log s) = queryLog k ->
  (forall i, 1 <= i < Z.of_nat k -> nonTerminal (net i)) ->
  Phase net (resume (pollInterval * Z.of_nat k + d)
                    (result (net (Z.of_nat k))) (setInflight [] s)).
Proof.
  intros Hatt Hk Htimer Hlat Hd Hnext Hout Hcb Hq Hnon.
  set (t := pollInterval * Z.of_nat k + d).
  set (s0 := setInflight [] s).
  pose proof (resume_cases t (result (net (Z.of_nat k))) s0) as H.
  destruct (terminalOf (result (net (Z.of_nat k))))
    as [[cb verdict]|] eqn:Eterm.
  - destruct H as [-> Hiscb].
    apply (Done net _ k d (log s) cb); auto.
  - destruct H as (e & He & Heq & ->).
    assert (Hcb' : callbacks (log s ++ [(t, e)]) = []).
    { rewrite callbacks_app, Hcb. unfold callbacks. cbn [filter snd].
      now rewrite He. }
    assert (Hq' : queries (log s ++ [(t, e)]) = queryLog k).
    { rewrite queries_app, Hq. unfold queries at 1. cbn [filter snd].
      rewrite Heq. apply app_nil_r. }
    unfold afterTry. cbn [attempts emit s0 setInflight]. rewrite Hatt.
    destruct (maxAttempts <=? Z.of_nat k) eqn:Emax.
    + apply Z.leb_le in Emax. unfold maxAttempts in Emax.
      assert (k = 30%nat) by lia.
      apply (Done net _ k d (log s ++ [(t, e)]) (PaymentFailure timeoutMessage));
        auto 6.
    + apply Z.leb_gt in Emax. unfold maxAttempts in Emax.
      apply (Idle net _ k); auto; try lia.
      intros i Hi. destruct (Z.eq_dec i (Z.of_nat k)) as [->|Hne].
      * exact Eterm.
      * apply Hnon. lia.
Qed.

Lemma phase_step net s s' :
  prompt net -> Phase net s -> step net s = Some s' -> Phase net s'.
Proof.
  intros Hp [k Hatt Hk Htimer Hinfl Hnext Hout Hcb Hq Hnon
            |k d Hatt Hk Htimer Hlat Hd Hinfl Hnext Hout Hcb Hq Hnon
            |k d pre cb Hatt Hk Htimer Hinfl Hlat Hlog Hiscb Hcb Hq Hnon Hv]
         Hstep.
  - rewrite step_idle in Hstep by assumption. inversion Hstep; subst.
    eapply tick_waiting; eauto.
  - erewrite step_waiting in Hstep; [|exact Hinfl|rewrite Hnext; lia].
    inversion Hstep; subst. eapply resume_phase; eauto.
  - rewrite step_done in Hstep by assumption. discriminate.
Qed.

Lemma phase_runFrom net n : forall s,
  prompt net -> Phase net s -> Phase net (runFrom net n s).
Proof.
  induction n as [|n IH]; intros s Hp Hs; simpl.
  - exact Hs.
  - destruct (step net s) as [s'|] eqn:E; [|exact Hs].
    apply IH; [exact Hp|]. eapply phase_step; eauto.
Qed.

Lemma phase_run net n : prompt net -> Phase net (run net n).
Proof. intros Hp. apply phase_runFrom; [exact Hp|apply phase_start]. Qed.

Lemma phase_attempts net s : Phase net s -> 0 <= attempts s <= maxAttempts.
Proof. unfold maxAttempts. intros []; lia. Qed.

Lemma phase_progress net s :
  prompt net -> Phase net s -> timerActive s = true ->
  exists s', step net s = Some s' /\ (turnsLeft s' < turnsLeft s)%nat.
Proof.
  intros Hp [k Hatt Hk Htimer Hinfl Hnext Hout Hcb Hq Hnon
            |k d Hatt Hk Htimer Hlat Hd Hinfl Hnext Hout Hcb Hq Hnon
            |k d pre cb Hatt Hk Htimer Hinfl Hlat Hlog Hiscb Hcb Hq Hnon Hv]
         Hactive.
  - exists (tick net s). split; [now apply step_idle|].
    unfold turnsLeft, tick. cbn [timerActive attempts inflight].
    rewrite Htimer, Hinfl, Hatt, length_app. cbn [List.length app].
    replace (Z.to_nat (Z.of_nat k + 1)) with (S k) by lia.
    rewrite Nat2Z.id. lia.
  - eexists. split; [eapply step_waiting; [exact Hinfl|rewrite Hnext; lia]|].
    unfold turnsLeft at 2. rewrite Htimer, Hinfl, Hatt, Nat2Z.id.
    cbn [List.length].
    pose proof (resume_cases (pollInterval * Z.of_nat k + d)
                  (result (net (Z.of_nat k))) (setInflight [] s)) as H.
    destruct (terminalOf (result (net (Z.of_nat k)))) as [[cb verdict]|].
    + destruct H as [-> _]. unfold turnsLeft. cbn [timerActive emit clearInterval].
      lia.
    + destruct H as (e & _ & _ & ->). unfold afterTry.
      cbn [attempts emit setInflight]. rewrite Hatt.
      destruct (maxAttempts <=? Z.of_nat k) eqn:Emax.
      * unfold turnsLeft. cbn [timerActive emit clearInterval]. lia.
      * unfold turnsLeft.
        cbn [timerActive attempts inflight emit setInflight List.length].
        rewrite Htimer, Hatt, Nat2Z.id. lia.
  - congruence.
Qed.

Lemma phase_finishes net n : forall s,
  prompt net -> Phase net s -> (turnsLeft s <= n)%nat ->
  timerActive (runFrom net n s) = false.
Proof.
  induction n as [|n IH]; intros s Hp Hs Hn.
  - simpl. unfold turnsLeft in Hn.
    destruct (timerActive s) eqn:E; [|reflexivity].
    destruct Hs; try congruence;
      match goal with
      | H : inflight s = _ |- _ => rewrite H in Hn; cbn [List.length] in Hn
      end; lia.
  - destruct (timerActive s) eqn:E.
    + destruct (phase_progress net s Hp Hs E) as (s' & Hstep & Hlt).
      simpl. rewrite Hstep. apply IH; [exact Hp| |lia].
      eapply phase_step; eauto.
    + simpl. destruct Hs; try congruence.
      rewrite step_done by assumption. exact E.
Qed.

(** A session without overlap is over after sixty turns: thirty ticks
    and thirty replies at most. *)
Lemma prompt_run_done net :
  prompt net ->
  Phase net (run net 60) /\ timerActive (run net 60) = false /\
  finished net 60.
Proof.
  intros Hp. pose proof (phase_run net 60 Hp) as Hs.
  assert (Hoff : timerActive (run net 60) = false).
  { unfold run. apply phase_finishes; [exact Hp|apply phase_start|].
    vm_compute. lia. }
  repeat split; auto. unfold finished.
  destruct Hs; try congruence. now apply step_done.
Qed.

Lemma prompt_alwaysPending : prompt alwaysPending.
Proof.
  intros k _. exists 100. split; [reflexivity|]. unfold pollInterval. lia.
Qed.

Lemma prompt_run_ends net :
  prompt net ->
  exists k d cb,
    (1 <= k <= 30)%nat /\ latency (net (Z.of_nat k)) = Some d /\
    0 <= d < pollInterval /\
    endsWith net (queryLog k) (pollInterval * Z.of_nat k + d) cb /\
    isCallback cb = true /\
    (forall i, 1 <= i < Z.of_nat k -> nonTerminal (net i)) /\
    (terminalOf (result (net (Z.of_nat k))) = Some (cb, outcome (run net 60)) \/
     (nonTerminal (net (Z.of_nat k)) /\ k = 30%nat /\
      cb = PaymentFailure timeoutMessage)).
Proof.
  intros Hp. destruct (prompt_run_done net Hp) as (Hs & Hoff & Hfin).
  destruct Hs as [k Hatt Hk Htimer Hinfl Hnext Hout Hcb Hq Hnon
                 |k d Hatt Hk Htimer Hlat Hd Hinfl Hnext Hout Hcb Hq Hnon
                 |k d pre cb Hatt Hk Htimer Hinfl Hlat Hlog Hiscb Hcb Hq Hnon Hv];
    try congruence.
  exists k, d, cb. split; [exact Hk|]. split; [exact Hlat|].
  split; [destruct (Hp (Z.of_nat k)) as (d' & E & Hd');
          [unfold maxAttempts; lia|congruence]|].
  split; [exists 60%nat, pre; auto|].
  split; [exact Hiscb|]. split; [exact Hnon|].
  destruct Hv as [Hv|(H1 & H2 & H3 & _)]; auto.
Qed.

(** *** The claims about the poller *)

(** C1 (amended): in every session whose status replies each arrive
    before the next tick is due, the run ends with the recurring
    schedule cancelled and exactly one terminal callback (success,
    failure or timeout), which is the last action of the session: no
    status query follows it, and at most thirty precede it. *)
Theorem prompt_session_single_outcome (net : Network) :
  prompt net -> singleOutcome net.
Proof.
  intros Hp.
  destruct (prompt_run_ends net Hp)
    as (k & d & cb & Hk & _ & _ & (n & pre & Hfin & Hoff & Hlog & Hcb & Hq)
        & Hiscb & _).
  exists n, pre, (pollInterval * Z.of_nat k + d), cb.
  repeat split; auto. rewrite Hq, queryLog_length. lia.
Qed.

Lemma prompt_session_single_outcome_witness :
  prompt alwaysPending /\ singleOutcome alwaysPending.
Proof.
  split; [exact prompt_alwaysPending|].
  exact (prompt_session_single_outcome alwaysPending prompt_alwaysPending).
Defined.

(** C1 as stated fails: when the first reply (SUCCESS) takes 2.5 s, the
    second query is issued before it arrives, and both invocations call
    [handlePaymentSuccess], at 4100 ms and at 4500 ms. *)
Lemma slowFirst_fires_twice : ~ singleOutcome slowFirst.
Proof.
  intros (n & pre & t & cb & Hfin & _ & Hlog & Hiscb & Hcb & _).
  assert (H4 : finished slowFirst 4) by (vm_compute; reflexivity).
  assert (Hlen : List.length (callbacks (log (run slowFirst 4))) = 2%nat)
    by (vm_compute; reflexivity).
  rewrite (finished_unique _ _ _ Hfin H4) in Hlog.
  rewrite Hlog, callbacks_app, Hcb in Hlen. unfold callbacks in Hlen.
  cbn [filter snd app List.length] in Hlen. rewrite Hiscb in Hlen.
  discriminate.
Qed.

(** C2 (amended): in every session whose status replies each arrive
    before the next tick is due, the attempt counter never exceeds
    [maxAttempts] = 30, and the status, once it has left PENDING for
    SUCCESS, FAILED, CANCELLED or TIMEOUT, keeps that value in every
    later state. *)
Theorem prompt_session_bounded_monotonic (net : Network) :
  prompt net -> boundedAndMonotonic net.
Proof.
  intros Hp n. pose proof (phase_run net n Hp) as Hs. split.
  - apply (phase_attempts net), Hs.
  - intros Hout m Hle.
    destruct Hs as [k Hatt Hk Htimer Hinfl Hnext Hpend Hcb Hq Hnon
                   |k d Hatt Hk Htimer Hlat Hd Hinfl Hnext Hpend Hcb Hq Hnon
                   |k d pre cb Hatt Hk Htimer Hinfl Hlat Hlog Hiscb Hcb Hq Hnon Hv];
      try congruence.
    f_equal. apply finished_stable; [|exact Hle].
    unfold finished. now apply step_done.
Qed.

Lemma prompt_session_bounded_monotonic_witness :
  prompt alwaysPending /\ boundedAndMonotonic alwaysPending.
Proof.
  split; [exact prompt_alwaysPending|].
  exact (prompt_session_bounded_monotonic alwaysPending prompt_alwaysPending).
Defined.

(** C2 as stated fails: when the thirtieth reply takes 2.2 s, a
    thirty-first tick increments the counter to 31; its reply times the
    session out, and the late thirtieth reply (SUCCESS) then changes the
    status from TIMEOUT to SUCCESS. *)
Lemma slowLastSuccess_overruns :
  ~ boundedAndMonotonic slowLastSuccess /\
  attempts (run slowLastSuccess 60) = 31 /\
  outcome (run slowLastSuccess 61) = TIMEOUT /\
  outcome (run slowLastSuccess 62) = SUCCESS.
Proof.
  split; [|repeat split; vm_compute; reflexivity].
  intros H. destruct (H 60%nat) as [Hle _]. vm_compute in Hle.
  apply Hle. reflexivity.
Qed.

(** C3 (amended): if the first thirty replies are all non-terminal and
    each arrives before the next tick is due, the session issues exactly
    thirty queries (at 2000, 4000, ..., 60000 ms), fires no callback
    before the timeout, and fires the timeout callback exactly once, as
    its last action, when the thirtieth reply arrives: at 60000 ms plus
    the latency of that reply (60000 ms for an immediate reply). *)
Theorem prompt_pending_session_times_out (net : Network) :
  prompt net -> firstThirtyNonTerminal net ->
  exists d,
    latency (net 30) = Some d /\ 0 <= d < pollInterval /\
    endsWith net (queryLog 30) (60000 + d) (PaymentFailure timeoutMessage) /\
    List.length (queryLog 30) = 30%nat.
Proof.
  intros Hp Hnon.
  destruct (prompt_run_ends net Hp)
    as (k & d & cb & Hk & Hlat & Hd & Hend & _ & _ & Hv).
  destruct Hv as [Hv|(_ & -> & -> )].
  - assert (H : nonTerminal (net (Z.of_nat k)))
      by (apply Hnon; unfold maxAttempts; lia).
    unfold nonTerminal in H. congruence.
  - exists d. change (Z.of_nat 30) with 30 in *.
    repeat split; auto; lia.
Qed.

Lemma prompt_pending_session_times_out_witness :
  prompt alwaysPending /\ firstThirtyNonTerminal alwaysPending /\
  exists d,
    latency (alwaysPending 30) = Some d /\ 0 <= d < pollInterval /\
    endsWith alwaysPending (queryLog 30) (60000 + d)
             (PaymentFailure timeoutMessage) /\
    List.length (queryLog 30) = 30%nat.
Proof.
  assert (Hnon : firstThirtyNonTerminal alwaysPending)
    by (intros k _; reflexivity).
  split; [exact prompt_alwaysPending|]. split; [exact Hnon|].
  exact (prompt_pending_session_times_out alwaysPending
           prompt_alwaysPending Hnon).
Defined.

(** C3 as stated fails: with thirty-one PENDING replies of which the
    thirtieth takes 2.5 s, a thirty-first query is issued at 62000 ms
    and the timeout callback fires twice, at 62100 ms and at 62500 ms;
    the session does not end with a callback at 60000 ms. *)
Lemma slowLastPending_times_out_late :
  firstThirtyNonTerminal slowLastPending /\
  ~ (exists qs, List.length qs = 30%nat /\
                endsWith slowLastPending qs 60000
                         (PaymentFailure timeoutMessage)) /\
  List.length (queries (log (run slowLastPending 62))) = 31%nat /\
  callbacks (log (run slowLastPending 62))
  = [(62100, PaymentFailure timeoutMessage);
     (62500, PaymentFailure timeoutMessage)].
Proof.
  split; [|split; [|split; vm_compute; reflexivity]].
  - intros k _. unfold slowLastPending. destruct (k =? 30); reflexivity.
  - intros (qs & _ & n & pre & Hfin & _ & Hlog & _).
    assert (H62 : finished slowLastPending 62) by (vm_compute; reflexivity).
    assert (Hlast : fst (last (log (run slowLastPending 62)) (0, ConsoleError))
                    = 62500) by (vm_compute; reflexivity).
    rewrite (finished_unique _ _ _ Hfin H62) in Hlog.
    rewrite Hlog, last_last in Hlast. discriminate.
Qed.

(** C4 (amended): for replies PENDING, PENDING, SUCCESS, each arriving
    before the next tick is due, the session issues exactly three
    queries, at 2000, 4000 and 6000 ms (the first tick of [setInterval]
    comes one interval after the start), and its only callback is
    [handlePaymentSuccess] with the SUCCESS payload, when the third
    reply arrives: at 6000 ms plus the latency of that reply. *)
Theorem two_pending_then_success (net : Network) code data d :
  prompt net -> nonTerminal (net 1) -> nonTerminal (net 2) ->
  result (net 3) = Responded code (Some data) -> ok code = true ->
  status data = Some "SUCCESS" -> latency (net 3) = Some d ->
  endsWith net [(2000, Query 1); (4000, Query 2); (6000, Query 3)]
           (6000 + d) (PaymentSuccess data).
Proof.
  intros Hp H1 H2 Hres Hok Hst Hlat.
  assert (H3 : terminalOf (result (net 3)) = Some (PaymentSuccess data, SUCCESS)).
  { rewrite Hres. cbn [terminalOf]. rewrite Hok. unfold statusIs.
    rewrite Hst. reflexivity. }
  destruct (prompt_run_ends net Hp)
    as (k & d' & cb & Hk & Hlat' & Hd & Hend & _ & Hnon & Hv).
  destruct k as [|[|[|[|k]]]].
  - lia.
  - destruct Hv as [Hv|(_ & Hk30 & _)]; [|discriminate].
    change (Z.of_nat 1) with 1 in Hv. unfold nonTerminal in H1. congruence.
  - destruct Hv as [Hv|(_ & Hk30 & _)]; [|discriminate].
    change (Z.of_nat 2) with 2 in Hv. unfold nonTerminal in H2. congruence.
  - destruct Hv as [Hv|(_ & Hk30 & _)]; [|discriminate].
    change (Z.of_nat 3) with 3 in *.
    assert (cb = PaymentSuccess data) by congruence.
    assert (d' = d) by congruence. subst cb d'. exact Hend.
  - assert (H : nonTerminal (net 3)) by (apply Hnon; lia).
    unfold nonTerminal in H. congruence.
Qed.

Lemma two_pending_then_success_witness :
  prompt twoPendingThenSuccess /\
  endsWith twoPendingThenSuccess
           [(2000, Query 1); (4000, Query 2); (6000, Query 3)]
           (6000 + 0) (PaymentSuccess (body "SUCCESS" None)).
Proof.
  assert (Hp : prompt twoPendingThenSuccess).
  { intros k _. exists 0. unfold twoPendingThenSuccess, pollInterval.
    destruct (k =? 3); split; try reflexivity; lia. }
  split; [exact Hp|].
  apply (two_pending_then_success twoPendingThenSuccess 200
           (body "SUCCESS" None) 0 Hp); reflexivity.
Defined.

(** C4 as stated fails: with immediate replies PENDING, PENDING,
    SUCCESS the queries go out at 2000, 4000 and 6000 ms, not at 0,
    2000 and 4000 ms, and [handlePaymentSuccess] is called at 6000 ms,
    not at 4000 ms. *)
Lemma first_query_after_one_interval :
  map twoPendingThenSuccess [1; 2; 3]
  = [answer 0 "PENDING"; answer 0 "PENDING"; answer 0 "SUCCESS"] /\
  ~ endsWith twoPendingThenSuccess
             [(0, Query 1); (2000, Query 2); (4000, Query 3)]
             4000 (PaymentSuccess (body "SUCCESS" None)) /\
  queryTimes (log (run twoPendingThenSuccess 6)) = [2000; 4000; 6000] /\
  callbacks (log (run twoPendingThenSuccess 6))
  = [(6000, PaymentSuccess (body "SUCCESS" None))].
Proof.
  split; [reflexivity|]. split; [|split; reflexivity].
  intros (n & pre & Hfin & _ & Hlog & _).
  assert (H6 : finished twoPendingThenSuccess 6) by (vm_compute; reflexivity).
  assert (Hlast : fst (last (log (run twoPendingThenSuccess 6)) (0, ConsoleError))
                  = 6000) by (vm_compute; reflexivity).
  rewrite (finished_unique _ _ _ Hfin H6) in Hlog.
  rewrite Hlog, last_last in Hlast. discriminate.
Qed.

Lemma phase_inflight_nil net s :
  Phase net s -> timerActive s = true -> inflight s = [] ->
  exists k, attempts s = Z.of_nat k /\ (k < 30)%nat /\
            nextTick s = pollInterval * (Z.of_nat k + 1).
Proof.
  intros [k Hatt Hk Htimer Hinfl Hnext Hout Hcb Hq Hnon
         |k d Hatt Hk Htimer Hlat Hd Hinfl Hnext Hout Hcb Hq Hnon
         |k d pre cb Hatt Hk Htimer Hinfl Hlat Hlog Hiscb Hcb Hq Hnon Hv]
         Hactive Hnil; try congruence.
  exists k. auto.
Qed.

(** While the replies are non-terminal and arrive in time, turn [2j] is
    the end of attempt [j]: the counter is [j] and nothing is in
    flight. *)
Lemma idle_turn net :
  prompt net -> forall j, (j < 30)%nat ->
  (forall i, 1 <= i <= Z.of_nat j -> nonTerminal (net i)) ->
  attempts (run net (2 * j)) = Z.of_nat j /\
  timerActive (run net (2 * j)) = true /\
  inflight (run net (2 * j)) = [].
Proof.
  intros Hp. induction j as [|j IH]; intros Hj Hnon.
  - repeat split.
  - destruct IH as (Hatt & Htimer & Hinfl); [lia|intros i Hi; apply Hnon; lia|].
    destruct (Hp (Z.of_nat (S j))) as (d & Hlat & Hd);
      [unfold maxAttempts; lia|].
    destruct (phase_inflight_nil _ _ (phase_run net (2 * j) Hp) Htimer Hinfl)
      as (k & Hk & _ & Hnext).
    assert (k = j) by lia. subst k.
    assert (H1 : run net (S (2 * j)) = tick net (run net (2 * j))).
    { rewrite run_S, step_idle by assumption. reflexivity. }
    assert (H2 : run net (2 * S j)
                 = resume (nextTick (run net (2 * j)) + d)
                          (result (net (Z.of_nat (S j))))
                          (setInflight [] (run net (S (2 * j))))).
    { replace (2 * S j)%nat with (S (S (2 * j))) by lia.
      rewrite run_S. erewrite step_waiting; [reflexivity| |].
      - rewrite H1. unfold tick. cbn [inflight]. rewrite Hinfl, Hatt.
        unfold awaitFetch. cbn [abortTimer app].
        replace (Z.of_nat j + 1) with (Z.of_nat (S j)) by lia.
        rewrite Hlat. reflexivity.
      - rewrite H1. unfold tick. cbn [nextTick]. lia. }
    pose proof (resume_cases (nextTick (run net (2 * j)) + d)
                  (result (net (Z.of_nat (S j))))
                  (setInflight [] (run net (S (2 * j))))) as Hc.
    assert (Hterm : terminalOf (result (net (Z.of_nat (S j)))) = None)
      by (apply Hnon; lia).
    rewrite Hterm in Hc. destruct Hc as (e & _ & _ & Hres).
    rewrite H2, Hres, H1. unfold afterTry, tick.
    cbn [attempts emit setInflight]. rewrite Hatt.
    replace (maxAttempts <=? Z.of_nat j + 1) with false
      by (symmetry; apply Z.leb_gt; unfold maxAttempts; lia).
    cbn [attempts timerActive inflight emit setInflight].
    repeat split; auto; lia.
Qed.

(** Under the same conditions turn [2j + 1] has issued the query of
    attempt [j + 1], and the next turn resumes it. *)
Lemma waiting_turn net j :
  prompt net -> (j < 30)%nat ->
  (forall i, 1 <= i <= Z.of_nat j -> nonTerminal (net i)) ->
  resumes net (S (2 * j)) (Z.of_nat (S j)).
Proof.
  intros Hp Hj Hnon.
  destruct (idle_turn net Hp j Hj Hnon) as (Hatt & Htimer & Hinfl).
  destruct (Hp (Z.of_nat (S j))) as (d & Hlat & Hd);
    [unfold maxAttempts; lia|].
  destruct (phase_inflight_nil _ _ (phase_run net (2 * j) Hp) Htimer Hinfl)
    as (k & Hk & _ & Hnext).
  assert (H1 : run net (S (2 * j)) = tick net (run net (2 * j))).
  { rewrite run_S, step_idle by assumption. reflexivity. }
  exists (nextTick (run net (2 * j)) + d), (result (net (Z.of_nat (S j)))), [].
  rewrite H1. unfold tick. cbn [inflight nextTick timerActive].
  rewrite Hinfl, Hatt. unfold awaitFetch. cbn [abortTimer app].
  replace (Z.of_nat j + 1) with (Z.of_nat (S j)) by lia.
  rewrite Hlat. cbn [takeEarliest settles]. repeat split.
  replace (nextTick (run net (2 * j)) + pollInterval
           <=? nextTick (run net (2 * j)) + d) with false
    by (symmetry; apply Z.leb_gt; lia).
  apply andb_false_r.
Qed.

Lemma resume_failed t rep s :
  failedRequest rep -> resume t (result rep) s = catch t s.
Proof.
  intros [->|(code & b & -> & Hok)]; cbn [resume]; [reflexivity|].
  now rewrite Hok.
Qed.

Lemma callbacks_quiet lg t :
  callbacks (lg ++ [(t, ConsoleError)]) = callbacks lg.
Proof. rewrite callbacks_app. apply app_nil_r. Qed.

(** Whenever a session without overlap handles the failed request of
    attempt [k]: below the budget nothing but the console is touched,
    at the budget the session times out. *)
Lemma handled_error net n k :
  prompt net -> failedRequest (net k) -> resumes net n k ->
  (k < maxAttempts -> errorIsSilent net n k) /\
  (k = maxAttempts -> errorTimesOut net n k).
Proof.
  intros Hp Hfail (t & r & rest & Htake & Hfirst & Hinfl').
  pose proof (phase_run net n Hp) as Hs.
  destruct Hs as [k' Hatt Hk Htimer Hinfl Hnext Hout Hcb Hq Hnon
                 |k' d Hatt Hk Htimer Hlat Hd Hinfl Hnext Hout Hcb Hq Hnon
                 |k' d pre cb Hatt Hk Htimer Hinfl Hlat Hlog Hiscb Hcb Hq Hnon Hv];
    try congruence.
  rewrite Hinfl in Hinfl'. injection Hinfl' as Ek Et Er Erest.
  subst k t r rest.
  set (k := Z.of_nat k') in *. set (t := pollInterval * k + d) in *.
  assert (Hrun : run net (S n)
                 = catch t (setInflight [] (run net n))).
  { rewrite run_S. erewrite step_waiting; [|exact Hinfl|rewrite Hnext; lia].
    now apply resume_failed. }
  unfold catch, afterTry in Hrun.
  cbn [attempts emit setInflight] in Hrun. rewrite Hatt in Hrun.
  unfold maxAttempts in *.
  split.
  - intros Hlt.
    replace (30 <=? k) with false in Hrun by (symmetry; apply Z.leb_gt; lia).
    unfold errorIsSilent. rewrite Hrun.
    cbn [attempts timerActive nextTick log emit setInflight].
    rewrite callbacks_quiet. repeat split; auto.
    apply step_idle; [exact Htimer|reflexivity].
  - intros Heq.
    replace (30 <=? k) with true in Hrun by (symmetry; apply Z.leb_le; lia).
    exists t. rewrite Hrun.
    cbn [attempts timerActive log emit clearInterval setInflight].
    rewrite callbacks_app, callbacks_quiet, Hcb. repeat split; auto.
Qed.

(** C5 (amended): in a session whose replies each arrive before the
    next tick is due, let attempt k = j + 1 be reached (the replies
    before it are non-terminal) and let its request fail with a network
    error or a non-2xx response. The error is handled at turn 2j + 1;
    for k < 30 it fires no callback, leaves the attempt counter at k (it
    is not reset, and the attempt stays consumed) and leaves the
    schedule running, so that the next turn is the tick of attempt
    k + 1, at 2000 * (k + 1) ms, one interval after the tick of attempt
    k; for k = 30 the schedule is cancelled and the only callback of the
    session is the timeout. *)
Theorem prompt_error_is_swallowed (net : Network) (j : nat) :
  prompt net -> (j < 30)%nat ->
  (forall i, 1 <= i <= Z.of_nat j -> nonTerminal (net i)) ->
  failedRequest (net (Z.of_nat (S j))) ->
  resumes net (S (2 * j)) (Z.of_nat (S j)) /\
  ((S j < 30)%nat -> errorIsSilent net (S (2 * j)) (Z.of_nat (S j))) /\
  (S j = 30%nat -> errorTimesOut net (S (2 * j)) (Z.of_nat (S j))).
Proof.
  intros Hp Hj Hnon Hfail.
  pose proof (waiting_turn net j Hp Hj Hnon) as Hres.
  destruct (handled_error net _ _ Hp Hfail Hres) as [Hlow Hlast].
  split; [exact Hres|]. split.
  - intros Hlt. apply Hlow. unfold maxAttempts. lia.
  - intros Heq. apply Hlast. unfold maxAttempts. lia.
Qed.

Lemma prompt_error_is_swallowed_witness :
  failedRequest (errorOnFive 5) /\ resumes errorOnFive 9 5 /\
  errorIsSilent errorOnFive 9 5 /\
  log (run errorOnFive 11)
  = log (run errorOnFive 9)
    ++ [(10300, ConsoleError); (12000, Query 6)].
Proof.
  assert (Hp : prompt errorOnFive).
  { intros k _. unfold errorOnFive, pollInterval.
    destruct (k =? 5); [exists 300|exists 100]; split; try reflexivity; lia. }
  assert (Hfail : failedRequest (errorOnFive (Z.of_nat 5)))
    by (left; reflexivity).
  assert (Hnon : forall i, 1 <= i <= Z.of_nat 4 -> nonTerminal (errorOnFive i)).
  { intros i _. unfold errorOnFive. destruct (i =? 5); reflexivity. }
  assert (Hj : (4 < 30)%nat) by lia.
  destruct (prompt_error_is_swallowed errorOnFive 4 Hp Hj Hnon Hfail)
    as (Hres & Hsilent & _).
  split; [exact Hfail|]. split; [exact Hres|]. split.
  - apply Hsilent. lia.
  - vm_compute. reflexivity.
Defined.

(** C5 as stated fails: when the request of attempt 29 fails only after
    2.5 s, the thirtieth attempt has started (and timed the session
    out) by the time the error is handled, and the handler of the error
    on attempt 29 fires the timeout callback a second time. *)
Lemma lateError_fires_timeout :
  failedRequest (lateError 29) /\ 29 < maxAttempts /\
  resumes lateError 59 29 /\
  ~ errorIsSilent lateError 59 29 /\
  callbacks (log (run lateError 59))
  = [(60100, PaymentFailure timeoutMessage)] /\
  callbacks (log (run lateError 60))
  = [(60100, PaymentFailure timeoutMessage);
     (60500, PaymentFailure timeoutMessage)].
Proof.
  assert (H59 : callbacks (log (run lateError 59))
                = [(60100, PaymentFailure timeoutMessage)])
    by (vm_compute; reflexivity).
  assert (H60 : callbacks (log (run lateError 60))
                = [(60100, PaymentFailure timeoutMessage);
                   (60500, PaymentFailure timeoutMessage)])
    by (vm_compute; reflexivity).
  split; [left; reflexivity|]. split; [reflexivity|]. split.
  - exists 60500, Rejected, []. repeat split; vm_compute; reflexivity.
  - split; [|split; assumption].
    intros (Hsame & _). rewrite H59, H60 in Hsame. discriminate.
Qed.

(** C6 (amended): a FAILED status surfaces the error message of the
    service when the reply carries a non-empty one and the default
    Payment was declined otherwise; a CANCELLED status always surfaces
    the fixed message Payment was cancelled, whatever error the reply
    carries; when the budget is exhausted the message tells the user to
    check the M-Pesa inbox. *)
Theorem failure_message_by_status t code (data : PaymentData) (s : State) :
  ok code = true ->
  (status data = Some "FAILED" ->
   log (resume t (Responded code (Some data)) s)
   = log s ++ [(t, PaymentFailure
                     match error data with
                     | Some (String c rest) => String c rest
                     | _ => "Payment was declined"
                     end)]) /\
  (status data = Some "CANCELLED" ->
   log (resume t (Responded code (Some data)) s)
   = log s ++ [(t, PaymentFailure "Payment was cancelled")]) /\
  (forall r, terminalOf r = None -> maxAttempts <= attempts s ->
   exists e, isCallback e = false /\
     log (resume t r s)
     = log s ++ [(t, e); (t, PaymentFailure timeoutMessage)]) /\
  Catalog.includes timeoutMessage "Please check your M-Pesa inbox" = true.
Proof.
  intros Hok. split; [|split; [|split]].
  - intros Hst. cbn [resume]. rewrite Hok. unfold statusIs. rewrite Hst.
    reflexivity.
  - intros Hst. cbn [resume]. rewrite Hok. unfold statusIs. rewrite Hst.
    reflexivity.
  - intros r Hterm Hmax. pose proof (resume_cases t r s) as H.
    rewrite Hterm in H. destruct H as (e & He & _ & ->).
    exists e. split; [exact He|]. unfold afterTry. cbn [attempts emit].
    replace (maxAttempts <=? attempts s) with true
      by (symmetry; apply Z.leb_le; exact Hmax).
    cbn [log emit clearInterval]. now rewrite <- app_assoc.
  - vm_compute. reflexivity.
Qed.

Lemma failure_message_by_status_witness :
  log (resume 2100 (Responded 200 (Some (body "FAILED" (Some "Insufficient funds")))) start)
  = [(2100, PaymentFailure "Insufficient funds")] /\
  log (resume 2100 (Responded 200 (Some (body "FAILED" None))) start)
  = [(2100, PaymentFailure "Payment was declined")] /\
  log (resume 2100 (Responded 200 (Some cancelledWithReason)) start)
  = [(2100, PaymentFailure "Payment was cancelled")].
Proof.
  split; [|split].
  - exact (proj1 (failure_message_by_status 2100 200
                    (body "FAILED" (Some "Insufficient funds")) start eq_refl)
                 eq_refl).
  - exact (proj1 (failure_message_by_status 2100 200
                    (body "FAILED" None) start eq_refl)
                 eq_refl).
  - exact (proj1 (proj2 (failure_message_by_status 2100 200
                           cancelledWithReason start eq_refl))
                 eq_refl).
Defined.

(** C6 as stated fails for CANCELLED: a reply with status CANCELLED and
    the error Request cancelled by user does not surface that message
    but the fixed one. *)
Lemma cancelled_ignores_service_message :
  status cancelledWithReason = Some "CANCELLED" /\
  error cancelledWithReason = Some "Request cancelled by user" /\
  callbacks (log (resume 2100 (Responded 200 (Some cancelledWithReason)) start))
  <> [(2100, PaymentFailure "Request cancelled by user")].
Proof.
  split; [reflexivity|]. split; [reflexivity|].
  vm_compute. discriminate.
Qed.

(** C7 at the failing input: the status query is sent without an abort
    signal (as are the five POST requests), unlike the requests of
    [fetchProducts], [fetchProductDetails] and [fetchPricingCalculation],
    which are aborted after [CONFIG.TIMEOUT_MS] = 15000 ms; a status
    query that is never answered therefore never settles, and the
    invocation that issued it stays suspended in every later state of
    the session. *)
Theorem poll_query_is_never_aborted :
  abortTimer PollPaymentStatus = None /\
  map abortTimer [FetchProducts; FetchProductDetails; FetchPricingCalculation]
  = [Some 15000; Some 15000; Some 15000] /\
  map abortTimer [DownloadQuote; RequestSample; HandleLoginSubmit;
                  HandleRegisterSubmit; InitiatePayment]
  = [None; None; None; None; None] /\
  awaitFetch FetchProducts unanswered = Some (15000, Aborted) /\
  awaitFetch PollPaymentStatus unanswered = None /\
  forall n,
    In {| attempt := 1; settles := None |}
       (inflight (run silentFirst (S n))).
Proof.
  repeat split. intros n. unfold run.
  replace (S n) with (1 + n)%nat by lia. rewrite runFrom_add.
  apply runFrom_keeps_unanswered; [reflexivity|].
  vm_compute. left. reflexivity.
Qed.

End PollerFacts.

(* ------------------------------------------------------------------ *)

Module FormsFacts.
Import Forms.

Lemma exactly_spec p n : forall s,
  exactly p n s = true <-> String.length s = n /\ all p s = true.
Proof.
  induction n as [|n IH]; intros [|c s]; simpl.
  - tauto.
  - split; [discriminate|intros [H _]; discriminate].
  - split; [discriminate|intros [H _]; discriminate].
  - rewrite andb_true_iff, IH. split.
    + intros (Hc & Hl & Ha). rewrite Hc. auto.
    + intros (Hl & Ha). apply andb_true_iff in Ha. destruct Ha. auto.
Qed.

Lemma all_keep p s : all p (keep p s) = true.
Proof.
  induction s as [|c s IH]; simpl; [reflexivity|].
  destruct (p c) eqn:E; simpl; [now rewrite E|exact IH].
Qed.

Lemma keep_id p s : all p s = true -> keep p s = s.
Proof.
  induction s as [|c s IH]; simpl; [reflexivity|].
  intros H. apply andb_true_iff in H. destruct H as [Hc Hs].
  rewrite Hc. f_equal. auto.
Qed.

Lemma all_substring p s : forall n m,
  all p s = true -> all p (substring n m s) = true.
Proof.
  induction s as [|c s IH]; intros n m H.
  - destruct n, m; reflexivity.
  - simpl in H. apply andb_true_iff in H. destruct H as [Hc Hs].
    destruct n as [|n]; destruct m as [|m]; simpl; auto.
    rewrite Hc. simpl. auto.
Qed.

Lemma length_substring0 s : forall m,
  (m <= String.length s)%nat -> String.length (substring 0 m s) = m.
Proof.
  induction s as [|c s IH]; intros [|m] H; simpl in *; try lia.
  f_equal. apply IH. lia.
Qed.

Lemma limit9_length v : (String.length (limit9 v) <= 9)%nat.
Proof.
  unfold limit9. destruct (9 <? String.length v)%nat eqn:E.
  - apply Nat.ltb_lt in E. rewrite length_substring0; lia.
  - apply Nat.ltb_ge in E. exact E.
Qed.

Lemma limit9_length_9 v :
  String.length (limit9 v) = 9%nat <-> (9 <= String.length v)%nat.
Proof.
  unfold limit9. destruct (9 <? String.length v)%nat eqn:E.
  - apply Nat.ltb_lt in E. rewrite length_substring0; lia.
  - apply Nat.ltb_ge in E. lia.
Qed.

Lemma limit9_all p v : all p v = true -> all p (limit9 v) = true.
Proof.
  unfold limit9. destruct (9 <? String.length v)%nat; auto.
  now apply all_substring.
Qed.

Lemma limit9_short v : (String.length v <= 9)%nat -> limit9 v = v.
Proof.
  unfold limit9. intros H.
  replace (9 <? String.length v)%nat with false; [reflexivity|].
  symmetry. apply Nat.ltb_ge. exact H.
Qed.

(** X1: whatever is typed into a phone field, [formatPhoneInput] leaves
    at most nine characters, all of them digits, it changes nothing
    when applied again, and its result passes [validatePhone] exactly
    when the typed text contains at least nine digits. *)
Theorem formatPhoneInput_sanitises (value : string) :
  all isDigit (formatPhoneInput value) = true /\
  (String.length (formatPhoneInput value) <= 9)%nat /\
  formatPhoneInput (formatPhoneInput value) = formatPhoneInput value /\
  (validatePhone (formatPhoneInput value) = true
   <-> (9 <= String.length (keep isDigit value))%nat).
Proof.
  assert (Hall : all isDigit (formatPhoneInput value) = true)
    by (apply limit9_all, all_keep).
  assert (Hlen : (String.length (formatPhoneInput value) <= 9)%nat)
    by apply limit9_length.
  split; [exact Hall|]. split; [exact Hlen|]. split.
  - unfold formatPhoneInput at 1. rewrite (keep_id _ _ Hall).
    now apply limit9_short.
  - unfold validatePhone. rewrite exactly_spec.
    unfold formatPhoneInput. rewrite limit9_length_9.
    fold (formatPhoneInput value). tauto.
Qed.

Lemma upperChar_alnum c : isUpperAlnum (upperChar c) = isAlnum c.
Proof. destruct c as [[] [] [] [] [] [] [] []]; reflexivity. Qed.

Lemma upperChar_fixed c : isUpperAlnum c = true -> upperChar c = c.
Proof.
  destruct c as [[] [] [] [] [] [] [] []]; intros H;
    solve [reflexivity | discriminate H].
Qed.

Lemma isDigit_upperAlnum c : isDigit c = true -> isUpperAlnum c = true.
Proof. unfold isUpperAlnum. now intros ->. Qed.

Lemma length_toUpperCase s : String.length (toUpperCase s) = String.length s.
Proof. induction s as [|c s IH]; simpl; auto. Qed.

Lemma all_toUpperCase s :
  all isUpperAlnum (toUpperCase s) = all isAlnum s.
Proof.
  induction s as [|c s IH]; simpl; [reflexivity|].
  now rewrite upperChar_alnum, IH.
Qed.

Lemma toUpperCase_fixed s :
  all isUpperAlnum s = true -> toUpperCase s = s.
Proof.
  induction s as [|c s IH]; simpl; [reflexivity|].
  intros H. apply andb_true_iff in H. destruct H as [Hc Hs].
  now rewrite (upperChar_fixed _ Hc), IH.
Qed.

Lemma keep_toUpperCase s :
  String.length (keep isUpperAlnum (toUpperCase s))
  = String.length (keep isAlnum s).
Proof.
  induction s as [|c s IH]; simpl; [reflexivity|].
  rewrite upperChar_alnum. destruct (isAlnum c); simpl; auto.
Qed.

Lemma all_weaken (p q : ascii -> bool) s :
  (forall c, p c = true -> q c = true) -> all p s = true -> all q s = true.
Proof.
  intros Hpq. induction s as [|c s IH]; simpl; [reflexivity|].
  intros H. apply andb_true_iff in H. destruct H as [Hc Hs].
  now rewrite (Hpq _ Hc), IH.
Qed.

(** X2: whatever ASCII text is typed into a PIN field, [formatPinInput]
    leaves at most nine characters, all of them capital letters or
    digits, it changes nothing when applied again, and its result
    passes [validateKraPin] exactly when the typed text contains at
    least nine letters or digits. *)
Theorem formatPinInput_sanitises (value : string) :
  isAscii value = true ->
  all isUpperAlnum (formatPinInput value) = true /\
  (String.length (formatPinInput value) <= 9)%nat /\
  formatPinInput (formatPinInput value) = formatPinInput value /\
  (validateKraPin (formatPinInput value) = true
   <-> (9 <= String.length (keep isAlnum value))%nat).
Proof.
  intros _.
  assert (Hall : all isUpperAlnum (formatPinInput value) = true)
    by (apply limit9_all, all_keep).
  assert (Hlen : (String.length (formatPinInput value) <= 9)%nat)
    by apply limit9_length.
  split; [exact Hall|]. split; [exact Hlen|]. split.
  - unfold formatPinInput at 1.
    rewrite (toUpperCase_fixed _ Hall), (keep_id _ _ Hall).
    now apply limit9_short.
  - unfold validateKraPin. rewrite (toUpperCase_fixed _ Hall), exactly_spec.
    unfold formatPinInput. rewrite limit9_length_9, keep_toUpperCase.
    fold (formatPinInput value). tauto.
Qed.

Lemma formatPinInput_sanitises_witness :
  formatPinInput "a00-1234 567b!" = "A00123456" /\
  validateKraPin (formatPinInput "a00-1234 567b!") = true.
Proof.
  destruct (formatPinInput_sanitises "a00-1234 567b!" eq_refl)
    as (_ & _ & _ & Hvalid).
  split; [reflexivity|]. apply Hvalid. vm_compute. lia.
Defined.

(** X3: on ASCII text [validateKraPin] accepts exactly the strings of
    nine letters (of either case) or digits; the documented shape, a
    letter, seven digits and a letter, is not required: every string
    accepted by [validatePhone] is accepted as a KRA PIN too. *)
Theorem validateKraPin_accepts_any_nine_alnum (pin : string) :
  isAscii pin = true ->
  (validateKraPin pin = true
   <-> String.length pin = 9%nat /\ all isAlnum pin = true) /\
  (validatePhone pin = true -> validateKraPin pin = true).
Proof.
  intros _. unfold validateKraPin, validatePhone.
  rewrite !exactly_spec, length_toUpperCase, all_toUpperCase.
  split; [tauto|]. intros [Hl Ha]. split; [exact Hl|].
  eapply all_weaken; [|exact Ha].
  intros c Hc. unfold isAlnum. now rewrite (isDigit_upperAlnum _ Hc).
Qed.

Lemma validateKraPin_accepts_any_nine_alnum_witness :
  validatePhone "712345678" = true /\ validateKraPin "712345678" = true /\
  validateKraPin "a1234567b" = true.
Proof.
  destruct (validateKraPin_accepts_any_nine_alnum "712345678" eq_refl)
    as [_ Hphone].
  destruct (validateKraPin_accepts_any_nine_alnum "a1234567b" eq_refl)
    as [Hiff _].
  split; [reflexivity|]. split; [apply Hphone; reflexivity|].
  apply Hiff. split; reflexivity.
Defined.

Lemma trimEnd_idem s : trimEnd (trimEnd s) = trimEnd s.
Proof.
  induction s as [|c s IH]; [reflexivity|].
  cbn [trimEnd]. destruct (trimEnd s) as [|d r] eqn:E.
  - destruct (isWhite c) eqn:Ec; [reflexivity|].
    cbn [trimEnd]. now rewrite Ec.
  - cbn [trimEnd]. cbn [trimEnd] in IH. rewrite IH. reflexivity.
Qed.

Lemma trimEnd_head c r :
  isWhite c = false -> exists r', trimEnd (String c r) = String c r'.
Proof.
  intros Hc. cbn [trimEnd]. destruct (trimEnd r) as [|d r'].
  - rewrite Hc. eauto.
  - eauto.
Qed.

Lemma trimStart_head s :
  trimStart s = EmptyString \/
  exists c r, trimStart s = String c r /\ isWhite c = false.
Proof.
  induction s as [|c s IH]; simpl; [now left|].
  destruct (isWhite c) eqn:E; [exact IH|]. right. eauto.
Qed.

Lemma trim_idem s : trim (trim s) = trim s.
Proof.
  unfold trim. destruct (trimStart_head s) as [->|(c & r & -> & Hc)].
  - reflexivity.
  - destruct (trimEnd_head c r Hc) as (r' & E). rewrite E.
    cbn [trimStart]. rewrite Hc, <- E. apply trimEnd_idem.
Qed.

Lemma length_trimStart s : (String.length (trimStart s) <= String.length s)%nat.
Proof.
  induction s as [|c s IH]; simpl; [lia|].
  destruct (isWhite c); simpl; lia.
Qed.

Lemma length_trimEnd s : (String.length (trimEnd s) <= String.length s)%nat.
Proof.
  induction s as [|c s IH]; [simpl; lia|].
  cbn [trimEnd]. destruct (trimEnd s) as [|d r].
  - destruct (isWhite c); simpl in *; lia.
  - simpl in *. lia.
Qed.

Lemma trimStart_white s : all isWhite s = true -> trimStart s = EmptyString.
Proof.
  induction s as [|c s IH]; simpl; [reflexivity|].
  intros H. apply andb_true_iff in H. destruct H as [Hc Hs].
  rewrite Hc. auto.
Qed.

(** X4: on ASCII text [validateBusinessName] does not depend on
    whitespace around the name (trimming the name first, as
    [handleRegisterSubmit] does, changes nothing); a name it accepts has
    between 3 and 100 characters once trimmed, hence at least 3
    characters as typed, and a name made of whitespace only is
    rejected. *)
Theorem validateBusinessName_ignores_padding (name : string) :
  isAscii name = true ->
  validateBusinessName (trim name) = validateBusinessName name /\
  (validateBusinessName name = true ->
   (3 <= String.length (trim name) <= 100)%nat /\
   (3 <= String.length name)%nat) /\
  (all isWhite name = true -> validateBusinessName name = false).
Proof.
  intros _. split; [|split].
  - unfold validateBusinessName. now rewrite trim_idem.
  - unfold validateBusinessName. intros H. apply andb_true_iff in H.
    destruct H as [H3 H100]. apply Nat.leb_le in H3, H100.
    pose proof (length_trimEnd (trimStart name)).
    pose proof (length_trimStart name). unfold trim in *. lia.
  - intros H. unfold validateBusinessName, trim.
    now rewrite (trimStart_white _ H).
Qed.

Lemma validateBusinessName_ignores_padding_witness :
  validateBusinessName "  Acme Traders  " = true /\
  trim "  Acme Traders  " = "Acme Traders" /\
  validateBusinessName "   " = false.
Proof.
  destruct (validateBusinessName_ignores_padding "  Acme Traders  " eq_refl)
    as (Hsame & _ & _).
  destruct (validateBusinessName_ignores_padding "   " eq_refl)
    as (_ & _ & Hblank).
  split; [rewrite <- Hsame; reflexivity|]. split; [reflexivity|].
  apply Hblank. reflexivity.
Defined.

Lemma formatPhoneInput_sanitises_witness :
  formatPhoneInput "+254 712-345-678" = "254712345" /\
  validatePhone (formatPhoneInput "+254 712-345-678") = true /\
  validatePhone (formatPhoneInput "0712 345") = false.
Proof.
  destruct (formatPhoneInput_sanitises "+254 712-345-678")
    as (_ & _ & _ & Hvalid).
  split; [reflexivity|]. split; [apply Hvalid; vm_compute; lia|].
  reflexivity.
Defined.

End FormsFacts.

(* ------------------------------------------------------------------ *)

Module SessionFacts.
Import Forms WebStorage FormsFacts.

Lemma getItem_setItem key value area :
  getItem key (setItem key value area) = Some value.
Proof. unfold getItem, setItem. now rewrite String.eqb_refl. Qed.

Lemma getItem_setItem_other key k value area :
  k <> key -> getItem k (setItem key value area) = getItem k area.
Proof.
  unfold getItem, setItem. intros H.
  destruct (String.eqb_spec k key); [contradiction|reflexivity].
Qed.

Lemma getItem_removeItem key area : getItem key (removeItem key area) = None.
Proof. unfold getItem, removeItem. now rewrite String.eqb_refl. Qed.

Lemma getItem_removeItem_other key k area :
  k <> key -> getItem k (removeItem key area) = getItem k area.
Proof.
  unfold getItem, removeItem. intros H.
  destruct (String.eqb_spec k key); [contradiction|reflexivity].
Qed.

Lemma truthy_some s : s <> EmptyString -> truthy (Some s) = true.
Proof. destruct s; [congruence|reflexivity]. Qed.

Lemma checkUserSession_saved userId json b :
  toStr userId <> EmptyString ->
  checkUserSession (saveUserSession userId json b) = Some (toStr userId).
Proof.
  intros H. unfold checkUserSession, saveUserSession.
  cbn [localStorage sessionStorage].
  rewrite getItem_setItem_other by discriminate.
  rewrite getItem_setItem. unfold orItem. now rewrite truthy_some.
Qed.

(** X5: after [saveUserSession] with an id whose string form is not
    empty (an id missing from the reply is stored as the text
    undefined), [checkUserSession] returns that id and [getUserId]
    returns it too, so the checkout runs under the login id; after
    [clearUserSession] no session is found; and neither function
    touches a storage key other than user_id and user_data. *)
Theorem user_session_round_trip (userId : Html.JsText) (json : string)
        (b : Browser) :
  toStr userId <> EmptyString ->
  checkUserSession (saveUserSession userId json b) = Some (toStr userId) /\
  (forall now rand,
      fst (getUserId now rand (saveUserSession userId json b))
      = toStr userId) /\
  checkUserSession (clearUserSession (saveUserSession userId json b)) = None /\
  (forall key, key <> "user_id" -> key <> "user_data" ->
      getItem key (localStorage (saveUserSession userId json b))
      = getItem key (localStorage b) /\
      getItem key (sessionStorage (saveUserSession userId json b))
      = getItem key (sessionStorage b) /\
      getItem key (localStorage (clearUserSession b))
      = getItem key (localStorage b) /\
      getItem key (sessionStorage (clearUserSession b))
      = getItem key (sessionStorage b)).
Proof.
  intros H. split; [now apply checkUserSession_saved|]. split; [|split].
  - intros now rand. unfold getUserId, saveUserSession.
    cbn [sessionStorage]. rewrite getItem_setItem.
    destruct (toStr userId); [congruence|reflexivity].
  - unfold checkUserSession, clearUserSession.
    cbn [localStorage sessionStorage].
    rewrite getItem_removeItem_other by discriminate.
    now rewrite !getItem_removeItem.
  - intros key H1 H2. unfold saveUserSession, clearUserSession.
    cbn [localStorage sessionStorage].
    now rewrite !getItem_setItem_other, !getItem_removeItem_other by assumption.
Qed.

Lemma user_session_round_trip_witness :
  checkUserSession
    (saveUserSession Html.JsUndefined "{}" freshBrowser) = Some "undefined" /\
  checkUserSession (saveUserSession (Html.JsStr "U-17") "{}" freshBrowser)
  = Some "U-17".
Proof.
  split.
  - apply (user_session_round_trip Html.JsUndefined "{}" freshBrowser).
    discriminate.
  - apply (user_session_round_trip (Html.JsStr "U-17") "{}" freshBrowser).
    discriminate.
Defined.

(** X6: [getUserId] always returns a non-empty id and leaves it in
    sessionStorage, so every later call returns the same id and changes
    nothing; it never writes to localStorage, and it does not read it
    either: with no id in sessionStorage a new id of the form
    user_<time>_<random> is made even when localStorage holds the id of
    a logged-in user. *)
Theorem getUserId_is_stable (now rand now' rand' : string) (b : Browser) :
  let id := fst (getUserId now rand b) in
  let b1 := snd (getUserId now rand b) in
  id <> EmptyString /\
  getItem "user_id" (sessionStorage b1) = Some id /\
  getUserId now' rand' b1 = (id, b1) /\
  localStorage b1 = localStorage b /\
  (truthy (getItem "user_id" (sessionStorage b)) = false ->
   id = "user_" ++ now ++ "_" ++ rand).
Proof.
  cbv zeta. unfold getUserId.
  destruct (getItem "user_id" (sessionStorage b)) as [[|c rest]|] eqn:E;
    cbn [fst snd sessionStorage localStorage].
  - rewrite getItem_setItem. repeat split; discriminate.
  - rewrite E. repeat split; try discriminate.
  - rewrite getItem_setItem. repeat split; discriminate.
Qed.

Lemma getUserId_is_stable_witness :
  checkUserSession newTab = Some "U-17" /\
  fst (getUserId "1700000000000" "k3j9x2m1q" newTab)
  = "user_1700000000000_k3j9x2m1q".
Proof.
  split; [reflexivity|].
  apply (getUserId_is_stable "1700000000000" "k3j9x2m1q" "0" "0" newTab).
  reflexivity.
Defined.

End SessionFacts.

(* ------------------------------------------------------------------ *)

Module AuthFacts.
Import Forms WebStorage Auth FormsFacts SessionFacts.

Lemma validatePhone_spec phone :
  validatePhone phone = true
  <-> String.length phone = 9%nat /\ all isDigit phone = true.
Proof. apply exactly_spec. Qed.

Lemma formatPhoneNumber_valid phone :
  validatePhone phone = true ->
  String.length (formatPhoneNumber phone) = 12%nat /\
  all isDigit (formatPhoneNumber phone) = true.
Proof.
  intros H. apply validatePhone_spec in H. destruct H as [Hl Ha].
  unfold formatPhoneNumber. simpl. rewrite Hl, Ha. split; reflexivity.
Qed.

(** X7: [handleLoginSubmit] sends a request only when the trimmed phone
    field is nine digits and the trimmed PIN field passes
    [validateKraPin], and an invalid phone is reported before an
    invalid PIN. The request carries the phone as twelve digits, 254
    followed by the nine typed, and the PIN as typed (trimmed, not
    converted to capitals). *)
Theorem loginRequest_is_validated (phoneValue pinValue : string) :
  match loginRequest phoneValue pinValue with
  | Valid request =>
      validatePhone (trim phoneValue) = true /\
      validateKraPin (trim pinValue) = true /\
      action request = "login" /\
      phone_number request = "254" ++ trim phoneValue /\
      String.length (phone_number request) = 12%nat /\
      all isDigit (phone_number request) = true /\
      kra_pin request = trim pinValue
  | Invalid message =>
      (validatePhone (trim phoneValue) = false /\
       message = "Invalid phone number format (9 digits required)") \/
      (validatePhone (trim phoneValue) = true /\
       validateKraPin (trim pinValue) = false /\
       message = "Invalid KRA PIN format (A1234567B)")
  end.
Proof.
  unfold loginRequest.
  destruct (validatePhone (trim phoneValue)) eqn:Ephone; cbn [negb].
  - destruct (validateKraPin (trim pinValue)) eqn:Epin; cbn [negb].
    + cbn [action phone_number kra_pin].
      destruct (formatPhoneNumber_valid _ Ephone) as [Hl Ha].
      repeat split; auto.
    + right. auto.
  - left. auto.
Qed.

(** X8: [handleRegisterSubmit] sends a request only when the trimmed
    business name has 3 to 100 characters, the trimmed phone field is
    nine digits, the trimmed PIN passes [validateKraPin] and the terms
    box is ticked; otherwise it reports the first check that fails, in
    that order. The request carries the trimmed business name and the
    phone as twelve digits beginning with 254. *)
Theorem registerRequest_is_validated
        (businessValue phoneValue pinValue : string) (termsChecked : bool) :
  match registerRequest businessValue phoneValue pinValue termsChecked with
  | Valid request =>
      validateBusinessName businessValue = true /\
      validatePhone (trim phoneValue) = true /\
      validateKraPin (trim pinValue) = true /\
      termsChecked = true /\
      action request = "register" /\
      business_name request = Some (trim businessValue) /\
      phone_number request = "254" ++ trim phoneValue /\
      String.length (phone_number request) = 12%nat /\
      all isDigit (phone_number request) = true /\
      kra_pin request = trim pinValue
  | Invalid message =>
      (validateBusinessName businessValue = false /\
       message = "Business name must be 3-100 characters") \/
      (validateBusinessName businessValue = true /\
       validatePhone (trim phoneValue) = false /\
       message = "Invalid phone number format (9 digits required)") \/
      (validateBusinessName businessValue = true /\
       validatePhone (trim phoneValue) = true /\
       validateKraPin (trim pinValue) = false /\
       message = "Invalid KRA PIN format (A1234567B)") \/
      (validateBusinessName businessValue = true /\
       validatePhone (trim phoneValue) = true /\
       validateKraPin (trim pinValue) = true /\
       termsChecked = false /\
       message = "Please accept the terms and conditions")
  end.
Proof.
  unfold registerRequest.
  assert (Hname : validateBusinessName (trim businessValue)
                  = validateBusinessName businessValue).
  { unfold validateBusinessName. now rewrite trim_idem. }
  rewrite Hname.
  destruct (validateBusinessName businessValue) eqn:Ename; cbn [negb];
    [|left; auto].
  destruct (validatePhone (trim phoneValue)) eqn:Ephone; cbn [negb];
    [|right; left; auto].
  destruct (validateKraPin (trim pinValue)) eqn:Epin; cbn [negb];
    [|right; right; left; auto].
  destruct termsChecked; cbn [negb]; [|right; right; right; auto 6].
  cbn [action business_name phone_number kra_pin].
  destruct (formatPhoneNumber_valid _ Ephone) as [Hl Ha].
  repeat split; auto.
Qed.

Lemma orText_nonempty x d : d <> EmptyString -> orText x d <> EmptyString.
Proof. destruct x as [[|c r]|]; simpl; auto; discriminate. Qed.

Section Settle.

Variable stringify : UserData -> string.

Lemma settle_cases prefix failed catchDefault savedName request reply b :
  catchDefault <> EmptyString ->
  match settle stringify prefix failed catchDefault savedName request reply b with
  | SignedIn b' =>
      exists code data,
        reply = Replied code (inl data) /\ Transport.ok code = true /\
        success data = true /\
        b' = saveUserSession (user_id data)
               (stringify {| phone := phone_number request;
                             user_business_name := savedName data;
                             user_kra_pin := kra_pin request |}) b
  | Refused shown b' => b' = b /\ shown <> EmptyString
  end.
Proof.
  intros Hd. unfold settle. destruct reply as [m|code [data|m]].
  - split; [reflexivity|now apply orText_nonempty].
  - destruct (Transport.ok code) eqn:Eok.
    + destruct (success data) eqn:Es.
      * exists code, data. auto.
      * split; [reflexivity|now apply orText_nonempty].
    + split; [reflexivity|now apply orText_nonempty].
  - destruct (Transport.ok code) eqn:Eok;
      (split; [reflexivity|now apply orText_nonempty]).
Qed.

(** X9: a submit of the login form changes the stored session only when
    the form is valid, the reply has a 2xx status and its body says
    success; the visitor is then logged in under the id of the reply
    (under the text undefined when the reply has no user_id). In every
    other case, network failure, HTTP error, unreadable body or
    success false, the storage is left as it was and a non-empty error
    text is shown. *)
Theorem handleLoginSubmit_saves_only_on_success
        (phoneValue pinValue : string) (reply : AuthReply) (b : Browser) :
  match handleLoginSubmit stringify phoneValue pinValue reply b with
  | SignedIn b' =>
      validatePhone (trim phoneValue) = true /\
      validateKraPin (trim pinValue) = true /\
      exists code data,
        reply = Replied code (inl data) /\ Transport.ok code = true /\
        success data = true /\
        (toStr (user_id data) <> EmptyString ->
         checkUserSession b' = Some (toStr (user_id data)))
  | Refused shown b' => b' = b /\ shown <> EmptyString
  end.
Proof.
  unfold handleLoginSubmit.
  pose proof (loginRequest_is_validated phoneValue pinValue) as Hv.
  destruct (loginRequest phoneValue pinValue) as [m|request].
  - split; [reflexivity|].
    destruct Hv as [[_ ->]|(_ & _ & ->)]; discriminate.
  - destruct Hv as (Hphone & Hpin & _).
    unfold loginSettles.
    pose proof (settle_cases "Auth error: " "Login failed"
                  "Login failed. Please check your credentials."
                  reply_business_name request reply b) as Hs.
    destruct (settle stringify "Auth error: " "Login failed"
                "Login failed. Please check your credentials."
                reply_business_name request reply b) as [b'|shown b'].
    + destruct Hs as (code & data & Hr & Hok & Hsucc & ->); [discriminate|].
      split; [exact Hphone|]. split; [exact Hpin|].
      exists code, data. repeat split; auto.
      intros Hid. now apply checkUserSession_saved.
    + apply Hs. discriminate.
Qed.

End Settle.

Lemma handleLoginSubmit_saves_only_on_success_witness :
  exists b',
    handleLoginSubmit (fun _ => "{}") " 712345678" "a1234567b " welcome
                      freshBrowser = SignedIn b' /\
    checkUserSession b' = Some "U-17".
Proof.
  pose proof (handleLoginSubmit_saves_only_on_success
                (fun _ => "{}") " 712345678" "a1234567b " welcome
                freshBrowser) as H.
  destruct (handleLoginSubmit (fun _ => "{}") " 712345678" "a1234567b "
                              welcome freshBrowser) as [b'|shown b'] eqn:E;
    [|discriminate E].
  exists b'. split; [reflexivity|].
  destruct H as (_ & _ & code & data & Hr & _ & _ & Hid).
  unfold welcome in Hr. injection Hr as <- <-. apply Hid. discriminate.
Defined.

End AuthFacts.

(* ------------------------------------------------------------------ *)

Module DetailFacts.
Import Detail.
Local Open Scope Z_scope.
Local Open Scope list_scope.

Lemma split_nonempty s : split s <> [].
Proof.
  destruct s as [|c s]; simpl; [discriminate|].
  destruct (Ascii.eqb c "/"); [discriminate|].
  destruct (split s); discriminate.
Qed.

Lemma split_noSlash s : Forall (fun part => noSlash part = true) (split s).
Proof.
  induction s as [|c s IH]; simpl.
  - repeat constructor.
  - destruct (Ascii.eqb c "/") eqn:E.
    + constructor; [reflexivity|exact IH].
    + destruct (split s) as [|part parts].
      * constructor; [|constructor]. unfold noSlash. simpl. now rewrite E.
      * inversion IH; subst. constructor; [|assumption].
        unfold noSlash in *. simpl. now rewrite E.
Qed.

Lemma split_app_slash a rest :
  noSlash a = true -> split (a ++ String "/" rest) = a :: split rest.
Proof.
  induction a as [|c a IH]; intros H.
  - reflexivity.
  - unfold noSlash in H. simpl in H. apply andb_true_iff in H.
    destruct H as [Hc Ha]. apply negb_true_iff in Hc.
    simpl. rewrite Hc, (IH Ha). reflexivity.
Qed.

Lemma split_file f : noSlash f = true -> split f = [f].
Proof.
  induction f as [|c f IH]; intros H; [reflexivity|].
  unfold noSlash in H. simpl in H. apply andb_true_iff in H.
  destruct H as [Hc Hf]. apply negb_true_iff in Hc.
  simpl. rewrite Hc, (IH Hf). reflexivity.
Qed.

Lemma append_nil_r s : (s ++ EmptyString)%string = s.
Proof. induction s as [|c s IH]; simpl; [reflexivity|now rewrite IH]. Qed.

Lemma append_assoc a b c :
  ((a ++ b) ++ c)%string = (a ++ (b ++ c))%string.
Proof. induction a as [|x a IH]; simpl; [reflexivity|now rewrite IH]. Qed.

Lemma concat_cons x l :
  String.concat EmptyString (x :: l)
  = (x ++ String.concat EmptyString l)%string.
Proof. destruct l; simpl; [now rewrite append_nil_r|reflexivity]. Qed.

Lemma split_join parts f :
  Forall (fun part => noSlash part = true) parts -> noSlash f = true ->
  split (String.concat EmptyString
           (map (fun part => (part ++ "/")%string) parts) ++ f)
  = parts ++ [f].
Proof.
  intros Hparts Hf. induction Hparts as [|part parts Hp _ IH].
  - simpl. now apply split_file.
  - cbn [map]. rewrite concat_cons, !append_assoc. cbn [append].
    rewrite (split_app_slash _ _ Hp), IH. reflexivity.
Qed.

Lemma Forall_removelast {A} (P : A -> Prop) l :
  Forall P l -> Forall P (removelast l).
Proof.
  induction 1 as [|x l Hx Hl IH]; simpl; [constructor|].
  destruct l; [constructor|]. constructor; assumption.
Qed.

Lemma indexOf_absent x parts : ~ In x parts -> indexOf x parts = None.
Proof.
  induction parts as [|part parts IH]; intros H; simpl; [reflexivity|].
  destruct (String.eqb_spec part x) as [->|Hne].
  - exfalso. apply H. now left.
  - rewrite IH; [reflexivity|]. intros Hin. apply H. now right.
Qed.

Lemma indexOf_present x parts i :
  indexOf x parts = Some i -> In x parts.
Proof.
  revert i. induction parts as [|part parts IH]; intros i; simpl.
  - discriminate.
  - destruct (String.eqb_spec part x) as [->|Hne]; [now left|].
    destruct (indexOf x parts) as [j|]; [|discriminate].
    intros _. right. eapply IH. reflexivity.
Qed.

Lemma pathOf_productLink id :
  pathOf (productLink id) = "product-detail.html"%string.
Proof. reflexivity. Qed.

(** X10: [navigateToProduct] writes the product id after the question
    mark of its link, so the path of the page it loads is the directory
    of the current page followed by product-detail.html, whatever the
    id; [getProductIdFromUrl] looks for a path segment after a segment
    named product. Unless the current page lies under a directory named
    product, the page loaded for any non-empty id is one on which
    [getProductIdFromUrl] returns null; with a falsy id nothing is
    loaded; and whatever [getProductIdFromUrl] returns is a segment of
    a path that has a segment named product. *)
Theorem navigateToProduct_id_is_not_found (pathname : string) :
  (forall id,
      id <> EmptyString ->
      ~ In "product"%string (removelast (split pathname)) ->
      exists path,
        navigateToProduct pathname (Some id) = Some path /\
        path = (directory pathname ++ "product-detail.html")%string /\
        getProductIdFromUrl path = None) /\
  navigateToProduct pathname None = None /\
  navigateToProduct pathname (Some EmptyString) = None /\
  (forall found,
      getProductIdFromUrl pathname = Some found ->
      In "product"%string (split pathname) /\ In found (split pathname)).
Proof.
  split; [|split; [|split]]; try reflexivity.
  - intros id Hid Hdir. destruct id as [|c rest]; [congruence|].
    eexists. split; [|split]; [reflexivity|reflexivity|].
    unfold getProductIdFromUrl, directory.
    rewrite split_join;
      [|apply Forall_removelast, split_noSlash|reflexivity].
    rewrite indexOf_absent; [reflexivity|].
    intros Hin. apply in_app_or in Hin. destruct Hin as [Hin|[Hin|[]]].
    + contradiction.
    + discriminate.
  - intros found. unfold getProductIdFromUrl.
    destruct (indexOf "product" (split pathname)) as [i|] eqn:E;
      [|discriminate].
    destruct (nth_error (split pathname) (i + 1)) as [[|c rest]|] eqn:En;
      try discriminate.
    intros H. injection H as <-. split.
    + eapply indexOf_present; eauto.
    + eapply nth_error_In; eauto.
Qed.

Lemma navigateToProduct_id_is_not_found_witness :
  navigateToProduct "/index.html" (Some "P#100"%string)
  = Some "/product-detail.html"%string /\
  getProductIdFromUrl "/product-detail.html" = None.
Proof.
  destruct (proj1 (navigateToProduct_id_is_not_found "/index.html")
              "P#100"%string) as (path & Hnav & Hpath & Hnone).
  - discriminate.
  - simpl. intros [H|[]]. discriminate.
  - subst path. split; [exact Hnav|exact Hnone].
Defined.

Lemma orNum_nonzero x d : d <> 0 -> orNum x d <> 0.
Proof. destruct x as [[| |]|]; simpl; auto; discriminate. Qed.

Lemma fetchPricingCalculation_sent productId quantity id q :
  fetchPricingCalculation productId quantity = PriceCheck id q ->
  productId = Some id /\ id <> EmptyString /\ q = quantity /\ 1 <= q.
Proof.
  unfold fetchPricingCalculation.
  destruct productId as [[|c rest]|]; try discriminate.
  destruct ((quantity =? 0) || (quantity <? 1)) eqn:E; [discriminate|].
  apply orb_false_iff in E. destruct E as [_ E]. apply Z.ltb_ge in E.
  intros H. injection H as <- <-. repeat split; auto. discriminate.
Qed.

Lemma onQuantityChange_priced page :
  snd (onQuantityChange page) <> MoqWarning /\
  (forall id q,
      snd (onQuantityChange page) = PriceCheck id q ->
      currentProductId page = Some id /\ id <> EmptyString /\
      1 <= q /\ orNum (minOrderQuantity page) 1 <= q /\
      q = Z.max (orNum (quantityInput page) 1)
                (orNum (minOrderQuantity page) 1)).
Proof.
  unfold onQuantityChange.
  set (moq := orNum (minOrderQuantity page) 1).
  set (quantity := orNum (quantityInput page) 1).
  destruct (quantity <? moq) eqn:E; cbn [snd]; unfold updatePricing;
    fold moq.
  - rewrite Z.ltb_irrefl. apply Z.ltb_lt in E. split.
    + unfold fetchPricingCalculation.
      destruct (currentProductId page) as [[|c rest]|]; try discriminate.
      destruct ((moq =? 0) || (moq <? 1)); discriminate.
    + intros id q H. apply fetchPricingCalculation_sent in H.
      destruct H as (H1 & H2 & H3 & H4). repeat split; auto; lia.
  - rewrite E. apply Z.ltb_ge in E. split.
    + unfold fetchPricingCalculation.
      destruct (currentProductId page) as [[|c rest]|]; try discriminate.
      destruct ((quantity =? 0) || (quantity <? 1)); discriminate.
    + intros id q H. apply fetchPricingCalculation_sent in H.
      destruct H as (H1 & H2 & H3 & H4). repeat split; auto; lia.
Qed.

Lemma toDouble_exact z : Z.abs z <= 2 ^ 53 -> toDouble z = z.
Proof.
  intros H. unfold toDouble.
  replace (Z.abs z <=? 2 ^ 53) with true by (symmetry; apply Z.leb_le; exact H).
  reflexivity.
Qed.

(** Past 2^53 the plus button no longer changes the number. *)
Lemma onIncrease_stalls :
  snd (onIncrease (setQuantity (Some (2 ^ 53)) samplePage))
  = PriceCheck "P-100" (2 ^ 53).
Proof. vm_compute. reflexivity. Qed.

(** X11: typing into the quantity field, or clicking plus or minus,
    never ends in the MOQ warning of [updatePricing]; a price check
    sent from the change handler is for the non-empty current product
    id and for the larger of the minimum order quantity and of the
    number in the field (1 when the field holds no number or 0), which
    is at least 1. For a field that holds no number or an integer below
    2^53 in magnitude, where adding or subtracting one is exact in
    doubles, a price check sent after plus or minus is likewise for the
    larger of the minimum and of the number the button has put in the
    field. *)
Theorem quantity_handlers_respect_moq (page : Page) :
  let moq := orNum (minOrderQuantity page) 1 in
  (snd (onQuantityChange page) <> MoqWarning /\
   snd (onIncrease page) <> MoqWarning /\
   snd (onDecrease page) <> MoqWarning) /\
  (forall id q,
      snd (onQuantityChange page) = PriceCheck id q ->
      currentProductId page = Some id /\ id <> EmptyString /\
      q = Z.max (orNum (quantityInput page) 1) moq /\ 1 <= q) /\
  ((forall v, quantityInput page = Some v -> Z.abs v < 2 ^ 53) ->
   (forall id q,
       snd (onIncrease page) = PriceCheck id q ->
       currentProductId page = Some id /\ id <> EmptyString /\
       q = Z.max (orNum (option_map (fun v => v + 1) (quantityInput page)) 1)
                 moq /\ 1 <= q) /\
   (forall id q,
       snd (onDecrease page) = PriceCheck id q ->
       currentProductId page = Some id /\ id <> EmptyString /\
       q = Z.max (orNum (option_map (fun v => Z.max moq (v - 1))
                                    (quantityInput page)) 1)
                 moq /\ 1 <= q)).
Proof.
  cbv zeta. split; [|split; [|intros Hsafe; split]].
  - repeat split; apply onQuantityChange_priced.
  - intros id q H.
    destruct (proj2 (onQuantityChange_priced page) id q H)
      as (H1 & H2 & H3 & H4 & H5). auto.
  - intros id q H. unfold onIncrease in H.
    destruct (proj2 (onQuantityChange_priced _) id q H)
      as (H1 & H2 & H3 & H4 & H5).
    repeat split; auto. rewrite H5. cbn [setQuantity quantityInput
      minOrderQuantity]. destruct (quantityInput page) as [v|] eqn:Ev;
      [|reflexivity].
    cbn [option_map]. rewrite toDouble_exact; [reflexivity|].
    specialize (Hsafe v eq_refl). lia.
  - intros id q H. unfold onDecrease in H.
    destruct (proj2 (onQuantityChange_priced _) id q H)
      as (H1 & H2 & H3 & H4 & H5).
    repeat split; auto. rewrite H5. cbn [setQuantity quantityInput
      minOrderQuantity]. destruct (quantityInput page) as [v|] eqn:Ev;
      [|reflexivity].
    cbn [option_map]. rewrite toDouble_exact; [reflexivity|].
    specialize (Hsafe v eq_refl). lia.
Qed.

Lemma quantity_handlers_respect_moq_witness :
  snd (onDecrease samplePage) = PriceCheck "P-100" 6 /\
  snd (onDecrease (setQuantity (Some 5) samplePage)) = PriceCheck "P-100" 5 /\
  5 <= 6.
Proof.
  split; [reflexivity|]. split; [reflexivity|].
  assert (Hsafe : forall v,
             quantityInput samplePage = Some v -> Z.abs v < 2 ^ 53).
  { intros v Hv. injection Hv as <-. reflexivity. }
  destruct (proj2 (proj2 (proj2 (quantity_handlers_respect_moq samplePage))
                         Hsafe)
              "P-100"%string 6 eq_refl) as (_ & _ & Hq & _).
  rewrite Hq. vm_compute. discriminate.
Defined.

Lemma orNum_idem x d : d <> 0 -> orNum (Some (orNum x d)) d = orNum x d.
Proof. destruct x as [[| |]|]; destruct d; simpl; congruence. Qed.

(** X12: when the product page opens, the minimum order quantity of the
    product (1 when it has none) is written into the quantity field,
    but the first price is asked for quantity 1: for a product whose
    minimum exceeds 1 the page opens on the MOQ warning with no price
    requested, and a change event on the untouched field then requests
    the price for the minimum; for the other products the price for
    quantity 1 is requested at once. *)
Theorem initial_price_is_for_quantity_one (productId : string)
        (productMoq : Num) :
  productId <> EmptyString ->
  let page := fst (initializeProductDetail productId productMoq) in
  let pricing := snd (initializeProductDetail productId productMoq) in
  let moq := orNum productMoq 1 in
  quantityInput page = Some moq /\
  (1 < moq ->
   pricing = MoqWarning /\
   onQuantityChange page = (page, PriceCheck productId moq)) /\
  (moq <= 1 -> pricing = PriceCheck productId 1).
Proof.
  intros Hid. cbv zeta. unfold initializeProductDetail, renderProductDetails.
  cbn [fst snd quantityInput]. split; [reflexivity|].
  unfold onQuantityChange, updatePricing.
  cbn [minOrderQuantity quantityInput currentProductId].
  rewrite orNum_idem by discriminate.
  set (moq := orNum productMoq 1).
  destruct productId as [|c rest]; [congruence|].
  split.
  - intros H. replace (1 <? moq) with true by (symmetry; apply Z.ltb_lt; lia).
    split; [reflexivity|]. rewrite Z.ltb_irrefl.
    unfold fetchPricingCalculation.
    replace (moq =? 0) with false by (symmetry; apply Z.eqb_neq; lia).
    replace (moq <? 1) with false by (symmetry; apply Z.ltb_ge; lia).
    reflexivity.
  - intros H. replace (1 <? moq) with false by (symmetry; apply Z.ltb_ge; lia).
    reflexivity.
Qed.

Lemma initial_price_is_for_quantity_one_witness :
  initializeProductDetail "P-100" (Some 5)
  = (samplePageAtOpen, MoqWarning) /\
  onQuantityChange samplePageAtOpen
  = (samplePageAtOpen, PriceCheck "P-100" 5).
Proof.
  assert (Hid : "P-100"%string <> EmptyString) by discriminate.
  destruct (initial_price_is_for_quantity_one "P-100" (Some 5) Hid)
    as (_ & Hmoq & _).
  destruct Hmoq as [Hwarn Hchange]; [reflexivity|].
  split; [|exact Hchange].
  rewrite (surjective_pairing (initializeProductDetail "P-100" (Some 5))).
  rewrite Hwarn. reflexivity.
Defined.

End DetailFacts.

(* ------------------------------------------------------------------ *)

Module MarketplaceFacts.
Import Catalog Transport Marketplace.
Local Open Scope Z_scope.

Lemma awaitFetch_products_late reply :
  (latency reply = None \/ exists d, latency reply = Some d /\ 15000 <= d) ->
  awaitFetch FetchProducts reply = Some (15000, Aborted).
Proof.
  unfold awaitFetch. cbn [abortTimer]. unfold TIMEOUT_MS.
  intros [->|(d & -> & Hd)]; [reflexivity|].
  replace (d <? 15000) with false by (symmetry; apply Z.ltb_ge; lia).
  reflexivity.
Qed.

Lemma awaitFetch_products_prompt reply d :
  latency reply = Some d -> d < 15000 ->
  awaitFetch FetchProducts reply = Some (d, result reply).
Proof.
  unfold awaitFetch. cbn [abortTimer]. unfold TIMEOUT_MS. intros -> Hd.
  replace (d <? 15000) with true by (symmetry; apply Z.ltb_lt; lia).
  reflexivity.
Qed.

(** X13: [fetchProducts] gives up at 15000 ms, with the message Request
    timed out and the product lists untouched, whenever the response
    has not arrived by then; but the timer only covers the wait for the
    response: when a 2xx response arrives in time and its body never
    completes, the function never returns and the spinner stays. When
    it does return, the page no longer shows the spinner, and either
    the product lists are untouched or both are the list received. In
    that case the page shows the grid when every card renders and the
    list is not empty, the empty state No products match your search
    when the list is empty, and the empty state Failed to load products
    when a card fails to render: the lists have then been replaced
    although the page reports a failure. *)
Theorem fetchProducts_outcomes (reply : Reply) (body : Body) (m : Market) :
  ((latency reply = None \/ exists d, latency reply = Some d /\ 15000 <= d) ->
   fetchProducts reply body m = Some (15000, showEmptyState timedOut m)) /\
  (forall d code b,
      latency reply = Some d -> d < 15000 ->
      result reply = Responded code b -> ok code = true ->
      bodyLatency body = None ->
      fetchProducts reply body m = None) /\
  (forall t m',
      fetchProducts reply body m = Some (t, m') ->
      view m' <> Loading /\
      (store m' = store m \/
       exists cards,
         products body = Some cards /\
         allProducts (store m') = map product cards /\
         filteredProducts (store m') = map product cards /\
         view m' = if forallb renders cards
                   then match cards with
                        | [] => EmptyState noMatch
                        | _ => Grid (map product cards)
                        end
                   else EmptyState loadFailed)).
Proof.
  split; [|split].
  - intros H. unfold fetchProducts.
    now rewrite (awaitFetch_products_late reply H).
  - intros d code b Hlat Hd Hres Hok Hbody. unfold fetchProducts.
    rewrite (awaitFetch_products_prompt reply d Hlat Hd), Hres, Hok, Hbody.
    reflexivity.
  - intros t m'. unfold fetchProducts.
    destruct (awaitFetch FetchProducts reply) as [[t0 [| |code b]]|];
      try discriminate.
    + intros H. injection H as <- <-. split; [discriminate|now left].
    + intros H. injection H as <- <-. split; [discriminate|now left].
    + destruct (ok code).
      * destruct (bodyLatency body) as [d|]; [|discriminate].
        destruct (products body) as [cards|].
        -- intros H. injection H as <- <-.
           unfold loaded, renderProducts. cbn [view store filteredProducts
             allProducts]. split.
           ++ destruct (forallb renders cards); [|discriminate].
              destruct cards; discriminate.
           ++ right. exists cards. repeat split.
              destruct (forallb renders cards); [|reflexivity].
              destruct cards; reflexivity.
        -- intros H. injection H as <- <-. split; [discriminate|now left].
      * intros H. injection H as <- <-. split; [discriminate|now left].
Qed.

Lemma fetchProducts_outcomes_witness :
  fetchProducts unansweredRequest stalled opening
  = Some (15000, showEmptyState timedOut opening) /\
  fetchProducts quickHeaders stalled opening = None /\
  exists m',
    fetchProducts quickHeaders unrenderable opening = Some (150, m') /\
    allProducts (store m') = [widget] /\
    view m' = EmptyState loadFailed.
Proof.
  destruct (fetchProducts_outcomes unansweredRequest stalled opening)
    as (Hlate & _ & _).
  destruct (fetchProducts_outcomes quickHeaders stalled opening)
    as (_ & Hstall & _).
  destruct (fetchProducts_outcomes quickHeaders unrenderable opening)
    as (_ & _ & Hdone).
  split; [|split].
  - apply Hlate. left. reflexivity.
  - apply (Hstall 120 200 None); reflexivity.
  - eexists. split; [reflexivity|].
    destruct (Hdone _ _ eq_refl) as (_ & [Hsame|(cards & Hc & Hall & _ & Hv)]).
    + discriminate Hsame.
    + injection Hc as <-. split; [exact Hall|exact Hv].
Defined.

End MarketplaceFacts.

(* ------------------------------------------------------------------ *)

Module CheckoutFlowFacts.
Import Forms WebStorage Checkout CheckoutFlow FormsFacts SessionFacts.
Local Open Scope Z_scope.

Section Json.

Variable parse : string -> option (list CartItem).

Lemma getCartFromSession_cleared b :
  getCartFromSession parse (clearCart b) = [].
Proof.
  unfold getCartFromSession, clearCart. cbn [localStorage sessionStorage].
  now rewrite !getItem_removeItem.
Qed.

(** X14: the cart is read from sessionStorage first and from
    localStorage when sessionStorage holds none, so a cart passed to
    [saveCartToSession] is the one [getCartFromSession] returns; a
    stored cart that does not parse is treated like no cart, and
    [initializeCheckout] then reports Your cart is empty; after
    [handlePaymentSuccess] has cleared the cart the checkout page shows
    that message and offers no payment form, while the user session is
    kept. *)
Theorem cart_storage_round_trip (b : Browser) :
  (forall json cart,
      json <> EmptyString -> parse json = Some cart ->
      getCartFromSession parse (saveCartToSession json b) = cart) /\
  (forall json cart,
      truthy (getItem "cart" (sessionStorage b)) = false ->
      getItem "cart" (localStorage b) = Some json ->
      json <> EmptyString -> parse json = Some cart ->
      getCartFromSession parse b = cart) /\
  (forall json,
      orItem (getItem "cart" (sessionStorage b))
             (getItem "cart" (localStorage b)) = Some json ->
      parse json = None ->
      initializeCheckout parse b = CheckoutError "Your cart is empty") /\
  initializeCheckout parse (clearCart b) = CheckoutError "Your cart is empty" /\
  (forall phoneValue termsChecked userId reply,
      checkout parse (clearCart b) phoneValue termsChecked userId reply
      = None) /\
  checkUserSession (clearCart b) = checkUserSession b.
Proof.
  split; [|split; [|split; [|split; [|split]]]].
  - intros json cart Hne Hparse. unfold getCartFromSession, saveCartToSession.
    cbn [localStorage sessionStorage]. rewrite getItem_setItem.
    unfold orItem. rewrite (truthy_some _ Hne).
    destruct json; [congruence|]. now rewrite Hparse.
  - intros json cart Hs Hl Hne Hparse. unfold getCartFromSession, orItem.
    rewrite Hs, Hl. destruct json; [congruence|]. now rewrite Hparse.
  - intros json Hitem Hparse. unfold initializeCheckout, getCartFromSession.
    rewrite Hitem. destruct json; [reflexivity|]. now rewrite Hparse.
  - unfold initializeCheckout. now rewrite getCartFromSession_cleared.
  - intros. unfold checkout, initializeCheckout.
    now rewrite getCartFromSession_cleared.
  - unfold checkUserSession, clearCart. cbn [localStorage sessionStorage].
    now rewrite !getItem_removeItem_other by discriminate.
Qed.

(** X15: a visit of the checkout page followed by a submit of the
    payment form starts polling only when the stored cart is not empty,
    the trimmed phone field is nine digits, the terms box is ticked and
    the checkout service answers with a 2xx status and a non-empty
    checkout request id, which is the id polled. The request then sent
    carries the phone as 254 followed by the nine digits, the rounded
    total of [calculateTotals] as amount, and for each cart item the
    line total final_price_kes times quantity. *)
Theorem checkout_polls_only_when_valid
        (b : Browser) (phoneValue : string) (termsChecked : bool)
        (userId : string) (reply : CheckoutReply)
        (id : string) (payload : Payload) :
  checkout parse b phoneValue termsChecked userId reply
  = Some (Polling id payload) ->
  let cart := getCartFromSession parse b in
  cart <> [] /\
  validatePhoneNumber (trim phoneValue) = true /\
  termsChecked = true /\
  id <> EmptyString /\
  (exists code,
      reply = CheckoutResponded code (Some id) /\ Transport.ok code = true) /\
  payer_phone payload = "254" ++ trim phoneValue /\
  String.length (payer_phone payload) = 12%nat /\
  amount payload = paymentAmount cart /\
  map snd (cart_items payload) = map itemTotal cart.
Proof.
  cbv zeta. unfold checkout, initializeCheckout.
  destruct (getCartFromSession parse b) as [|item cart] eqn:Ecart;
    [discriminate|].
  intros H. injection H as H. unfold initiatePayment in H.
  destruct (validatePhoneNumber (trim phoneValue)) eqn:Ephone;
    cbn [negb] in H; [|discriminate].
  destruct termsChecked; cbn [negb] in H; [|discriminate].
  destruct reply as [|code [[|c rest]|]]; try discriminate.
  - destruct (Transport.ok code); discriminate.
  - destruct (Transport.ok code) eqn:Eok; [|discriminate].
    injection H as <- <-. cbn [payer_phone amount cart_items].
    split; [discriminate|]. split; [reflexivity|]. split; [reflexivity|].
    split; [discriminate|]. split; [exists code; auto|].
    split; [reflexivity|]. split.
    + apply (AuthFacts.formatPhoneNumber_valid _ Ephone).
    + split; [reflexivity|]. cbn [map snd]. f_equal.
      rewrite map_map. reflexivity.
  - destruct (Transport.ok code); discriminate.
Qed.

End Json.

Lemma checkout_polls_only_when_valid_witness :
  checkout parseSample withCart "712345678" true "U-17"
           (CheckoutResponded 200 (Some "ws_CO_1"))
  = Some (Polling "ws_CO_1"
            {| payer_id := "U-17"; payer_phone := "254712345678";
               amount := Some 2000;
               cart_items :=
                 [(quantity markedUpItem, final_price_kes markedUpItem,
                   itemTotal markedUpItem)] |})
  /\ paymentAmount (getCartFromSession parseSample withCart) = Some 2000.
Proof.
  split; [vm_compute; reflexivity|].
  destruct (checkout_polls_only_when_valid parseSample withCart "712345678"
              true "U-17" (CheckoutResponded 200 (Some "ws_CO_1")) "ws_CO_1"
              {| payer_id := "U-17"; payer_phone := "254712345678";
                 amount := Some 2000;
                 cart_items :=
                   [(quantity markedUpItem, final_price_kes markedUpItem,
                     itemTotal markedUpItem)] |})
    as (_ & _ & _ & _ & _ & _ & _ & Hamount & _).
  - vm_compute. reflexivity.
  - rewrite <- Hamount. reflexivity.
Defined.

Lemma cart_storage_round_trip_witness :
  getCartFromSession parseSample withCart = [markedUpItem] /\
  initializeCheckout parseSample
    (saveCartToSession "not json" freshBrowser)
  = CheckoutError "Your cart is empty".
Proof.
  destruct (cart_storage_round_trip parseSample freshBrowser)
    as (Hsave & _ & _).
  destruct (cart_storage_round_trip parseSample
              (saveCartToSession "not json" freshBrowser))
    as (_ & _ & Hbad & _).
  split.
  - apply Hsave; [discriminate|reflexivity].
  - apply (Hbad "not json"); reflexivity.
Defined.

End CheckoutFlowFacts.

(* ------------------------------------------------------------------ *)

Module PollerSessionFacts.
Import Transport Poller PollerFacts.
Local Open Scope Z_scope.
Local Open Scope list_scope.

(** X16: in a session whose replies each arrive before the next tick is
    due, the first terminal reply ends the session: if the replies of
    attempts 1 to j are non-terminal and the reply of attempt j + 1 is
    SUCCESS, FAILED or CANCELLED, then exactly j + 1 queries are issued,
    one per interval, the only callback is the one of that reply, fired
    when it arrives, and the attempt counter stops at j + 1. *)
Theorem first_terminal_reply_ends_session
        (net : Network) (j : nat) (cb : Event) (verdict : PollStatus) :
  prompt net -> (j < 30)%nat ->
  (forall i, 1 <= i <= Z.of_nat j -> nonTerminal (net i)) ->
  terminalOf (result (net (Z.of_nat (S j)))) = Some (cb, verdict) ->
  exists d,
    latency (net (Z.of_nat (S j))) = Some d /\
    endsWith net (queryLog (S j)) (pollInterval * Z.of_nat (S j) + d) cb /\
    attempts (run net 60) = Z.of_nat (S j) /\
    outcome (run net 60) = verdict.
Proof.
  intros Hp Hj Hpre Hterm.
  destruct (prompt_run_done net Hp) as (Hs & Hoff & Hfin).
  destruct Hs as [k Hatt Hk Htimer Hinfl Hnext Hout Hcb Hq Hnon
                 |k d Hatt Hk Htimer Hlat Hd Hinfl Hnext Hout Hcb Hq Hnon
                 |k d pre cb' Hatt Hk Htimer Hinfl Hlat Hlog Hiscb Hcb Hq Hnon Hv];
    try congruence.
  assert (Hk' : k = S j).
  { destruct (Nat.lt_trichotomy k (S j)) as [Hlt|[Heq|Hgt]]; [|exact Heq|].
    - exfalso. assert (Hn : nonTerminal (net (Z.of_nat k)))
        by (apply Hpre; lia).
      destruct Hv as [Hv|(_ & Hk30 & _)]; [|lia].
      unfold nonTerminal in Hn. congruence.
    - exfalso. assert (Hn : nonTerminal (net (Z.of_nat (S j))))
        by (apply Hnon; lia).
      unfold nonTerminal in Hn. congruence. }
  subst k. exists d. split; [exact Hlat|].
  destruct Hv as [Hv|(Hn & _)];
    [|unfold nonTerminal in Hn; congruence].
  rewrite Hterm in Hv. injection Hv as <- <-.
  split; [exists 60%nat, pre; auto|]. auto.
Qed.

Lemma first_terminal_reply_ends_session_witness :
  exists d,
    latency (twoPendingThenSuccess 3) = Some d /\
    endsWith twoPendingThenSuccess (queryLog 3) (pollInterval * 3 + d)
             (PaymentSuccess (body "SUCCESS" None)) /\
    attempts (run twoPendingThenSuccess 60) = 3 /\
    outcome (run twoPendingThenSuccess 60) = SUCCESS.
Proof.
  assert (Hp : prompt twoPendingThenSuccess).
  { intros k _. exists 0. unfold twoPendingThenSuccess, pollInterval.
    destruct (k =? 3); split; try reflexivity; lia. }
  assert (Hpre : forall i, 1 <= i <= Z.of_nat 2 ->
                           nonTerminal (twoPendingThenSuccess i)).
  { intros i Hi. unfold twoPendingThenSuccess.
    replace (i =? 3) with false by (symmetry; apply Z.eqb_neq; lia).
    reflexivity. }
  assert (Hj : (2 < 30)%nat) by lia.
  exact (first_terminal_reply_ends_session twoPendingThenSuccess 2
           (PaymentSuccess (body "SUCCESS" None)) SUCCESS
           Hp Hj Hpre eq_refl).
Defined.

Lemma takeEarliest_unanswered ps :
  Forall (fun p => settles p = None) ps -> takeEarliest ps = None.
Proof.
  induction 1 as [|p ps Hp _ IH]; [reflexivity|].
  cbn [takeEarliest]. now rewrite Hp, IH.
Qed.

Lemma unanswered_run net :
  (forall k, 1 <= k -> latency (net k) = None) ->
  forall n,
    attempts (run net n) = Z.of_nat n /\
    timerActive (run net n) = true /\
    nextTick (run net n) = pollInterval * (Z.of_nat n + 1) /\
    Forall (fun p => settles p = None) (inflight (run net n)) /\
    List.length (inflight (run net n)) = n /\
    log (run net n) = queryLog n.
Proof.
  intros Hnet. induction n as [|n IH].
  - repeat split. constructor.
  - destruct IH as (Hatt & Htimer & Hnext & Hinfl & Hlen & Hlog).
    assert (Hstep : run net (S n) = tick net (run net n)).
    { rewrite run_S. unfold step.
      now rewrite (takeEarliest_unanswered _ Hinfl), Htimer. }
    rewrite Hstep. unfold tick.
    cbn [attempts timerActive nextTick inflight log].
    assert (E : attempts (run net n) + 1 = Z.of_nat (S n)) by lia.
    rewrite E, Hnext, Hlog, queryLog_S.
    replace (Z.of_nat n + 1) with (Z.of_nat (S n)) by lia.
    unfold awaitFetch. cbn [abortTimer]. rewrite Hnet by lia.
    repeat split; auto; try lia.
    + apply Forall_app. split; [exact Hinfl|]. repeat constructor.
    + rewrite length_app, Hlen. simpl. lia.
Qed.

(** X17: if no status request is ever answered, the session never calls
    back, not even with the timeout, and never stops: after n turns it
    has issued n queries, one every 2000 ms, all n are still waiting,
    the counter is n (past 30 from the thirty-first turn on) and the
    interval is still running. *)
Theorem unanswered_session_never_reports (net : Network) (n : nat) :
  (forall k, 1 <= k -> latency (net k) = None) ->
  callbacks (log (run net n)) = [] /\
  log (run net n) = queryLog n /\
  attempts (run net n) = Z.of_nat n /\
  List.length (inflight (run net n)) = n /\
  timerActive (run net n) = true /\
  ~ finished net n.
Proof.
  intros Hnet.
  destruct (unanswered_run net Hnet n)
    as (Hatt & Htimer & Hnext & Hinfl & Hlen & Hlog).
  repeat split; auto.
  - rewrite Hlog. unfold queryLog, callbacks.
    induction (seq 1 n) as [|i l IH]; [reflexivity|exact IH].
  - unfold finished, step.
    now rewrite (takeEarliest_unanswered _ Hinfl), Htimer.
Qed.

Lemma unanswered_session_never_reports_witness :
  attempts (run (fun _ => unanswered) 45) = 45 /\
  callbacks (log (run (fun _ => unanswered) 45)) = [].
Proof.
  destruct (unanswered_session_never_reports (fun _ => unanswered) 45
              (fun _ _ => eq_refl))
    as (Hcb & _ & Hatt & _).
  split; [exact Hatt|exact Hcb].
Defined.

End PollerSessionFacts.

(* ------------------------------------------------------------------ *)

Module CharsFacts.
Import Html Chars HtmlFacts.

Lemma length_append a b :
  String.length (a ++ b) = (String.length a + String.length b)%nat.
Proof. induction a as [|c a IH]; simpl; auto. Qed.

Lemma escapeChar_plain c :
  special c = false -> escapeChar c = String c EmptyString.
Proof.
  destruct c as [[] [] [] [] [] [] [] []]; intros H;
    solve [reflexivity | discriminate H].
Qed.

Lemma escapeChar_special c :
  special c = true ->
  (2 <= String.length (escapeChar c))%nat /\ occurs "&"%char (escapeChar c).
Proof.
  destruct c as [[] [] [] [] [] [] [] []]; intros H;
    try discriminate H; (split; [simpl; lia|simpl; auto]).
Qed.

Lemma length_replaceAll s :
  (String.length s <= String.length (replaceAll s))%nat.
Proof.
  induction s as [|c s IH]; simpl; [lia|].
  rewrite length_append. destruct (special c) eqn:E.
  - destruct (escapeChar_special c E) as [H _]. lia.
  - rewrite (escapeChar_plain c E). simpl. lia.
Qed.

Lemma replaceAll_plain s : plain s = true -> replaceAll s = s.
Proof.
  unfold plain. induction s as [|c s IH]; simpl; [reflexivity|].
  intros H. apply andb_true_iff in H. destruct H as [Hc Hs].
  apply negb_true_iff in Hc. rewrite (escapeChar_plain c Hc), (IH Hs).
  reflexivity.
Qed.

Lemma replaceAll_special s :
  plain s = false ->
  (String.length s < String.length (replaceAll s))%nat /\
  occurs "&"%char (replaceAll s).
Proof.
  unfold plain. induction s as [|c s IH]; simpl; [discriminate|].
  intros H. rewrite length_append, occurs_app.
  destruct (special c) eqn:E.
  - destruct (escapeChar_special c E) as [H2 Hamp].
    pose proof (length_replaceAll s). split; [lia|now left].
  - simpl in H. destruct (IH H) as [Hlen Hamp].
    rewrite (escapeChar_plain c E). simpl. split; [lia|now right].
Qed.

Lemma occurs_not_plain c s : special c = true -> occurs c s -> plain s = false.
Proof.
  intros Hc. unfold plain. induction s as [|d s IH]; simpl; [tauto|].
  intros [<-|H].
  - now rewrite Hc.
  - rewrite (IH H). apply andb_false_r.
Qed.

(** X18: [escapeHtml] returns a string unchanged exactly when the
    string contains none of the five characters it replaces, and never
    makes it shorter; escaping is not idempotent: escaping an escaped
    string again changes it exactly when the original contained one of
    the five characters. *)
Theorem escapeHtml_fixes_plain_text_only (s : string) :
  (escapeHtml (JsStr s) = s <-> plain s = true) /\
  (String.length s <= String.length (escapeHtml (JsStr s)))%nat /\
  (escapeHtml (JsStr (escapeHtml (JsStr s))) = escapeHtml (JsStr s)
   <-> plain s = true).
Proof.
  rewrite !escapeHtml_str. split; [|split].
  - split.
    + intros H. destruct (plain s) eqn:E; [reflexivity|].
      destruct (replaceAll_special s E) as [Hlen _].
      rewrite H in Hlen. lia.
    + apply replaceAll_plain.
  - apply length_replaceAll.
  - split.
    + intros H. destruct (plain s) eqn:E; [reflexivity|].
      destruct (replaceAll_special s E) as [_ Hamp].
      assert (Hnp : plain (replaceAll s) = false)
        by (eapply occurs_not_plain; [|exact Hamp]; reflexivity).
      destruct (replaceAll_special _ Hnp) as [Hlen _].
      rewrite H in Hlen. lia.
    + intros H. now rewrite !(replaceAll_plain s H).
Qed.

Lemma escapeHtml_fixes_plain_text_only_witness :
  escapeHtml (JsStr "Acme Traders") = "Acme Traders" /\
  escapeHtml (JsStr (escapeHtml (JsStr "Tom & Jerry")))
  = "Tom &amp;amp; Jerry".
Proof.
  split; [|reflexivity].
  apply (proj1 (escapeHtml_fixes_plain_text_only "Acme Traders")).
  reflexivity.
Defined.

Lemma lowerChar_not_capital c : isCapital (Catalog.lowerChar c) = false.
Proof. destruct c as [[] [] [] [] [] [] [] []]; reflexivity. Qed.

Lemma toLowerCase_no_capital s : hasCapital (Catalog.toLowerCase s) = false.
Proof.
  induction s as [|c s IH]; simpl; [reflexivity|].
  now rewrite lowerChar_not_capital, IH.
Qed.

Lemma filter_none {A} (f : A -> bool) l :
  (forall x, f x = false) -> filter f l = [].
Proof.
  intros H. induction l as [|x l IH]; simpl; [reflexivity|].
  now rewrite H.
Qed.

(** X19: the category of a product is compared in lower case with the
    active category as it is: when the active category is not all and
    contains a capital letter, [filterProducts] leaves no product,
    whatever the catalogue and the search text. *)
Theorem capitalised_category_matches_nothing (st : Catalog.Store) :
  Catalog.activeCategory st <> "all" ->
  hasCapital (Catalog.activeCategory st) = true ->
  Catalog.filteredProducts (Catalog.filterProducts st) = [].
Proof.
  intros Hall Hcap. cbn [Catalog.filterProducts Catalog.filteredProducts].
  apply filter_none. intros product.
  apply andb_false_iff. left. unfold Catalog.matchesCategory.
  apply orb_false_iff. split.
  - destruct (String.eqb_spec (Catalog.activeCategory st) "all");
      [contradiction|reflexivity].
  - unfold Catalog.andThen.
    destruct (Catalog.category product) as [[|c rest]|]; try reflexivity.
    destruct (String.eqb_spec (Catalog.toLowerCase (String c rest))
                              (Catalog.activeCategory st)) as [E|];
      [|reflexivity].
    rewrite <- E, toLowerCase_no_capital in Hcap. discriminate.
Qed.

Lemma capitalised_category_matches_nothing_witness :
  Catalog.category Catalog.widget = Some "Tools" /\
  Catalog.filteredProducts (Catalog.filterProducts capitalised) = [].
Proof.
  split; [reflexivity|].
  apply capitalised_category_matches_nothing; [discriminate|reflexivity].
Defined.

Lemma addItem_default_quantity acc item :
  (Checkout.quantity item = None \/
   exists q, Checkout.quantity item = Some q /\ Checkout.falsy q = true) ->
  Checkout.addItem acc item
  = Checkout.addItem acc (withQuantity (Some PrimFloat.one) item).
Proof.
  intros H. unfold Checkout.addItem.
  rewrite (CheckoutFacts.orElse_one _ H). reflexivity.
Qed.

(** X20: a cart line whose quantity is missing or zero is counted
    exactly like the same line with quantity 1, wherever it stands in
    the cart: the total of [calculateTotals], the amount charged and the
    line total shown in the order summary are the same. *)
Theorem zero_quantity_counts_as_one (item : Checkout.CartItem)
        (before after : list Checkout.CartItem) :
  (Checkout.quantity item = None \/
   exists q, Checkout.quantity item = Some q /\ Checkout.falsy q = true) ->
  let counted := withQuantity (Some PrimFloat.one) item in
  Checkout.calculateTotals (before ++ item :: after)
  = Checkout.calculateTotals (before ++ counted :: after) /\
  Checkout.paymentAmount (before ++ item :: after)
  = Checkout.paymentAmount (before ++ counted :: after) /\
  Checkout.itemTotal item = Checkout.itemTotal counted.
Proof.
  intros Hq counted.
  assert (Htotal : Checkout.calculateTotals (before ++ item :: after)
                   = Checkout.calculateTotals (before ++ counted :: after)).
  { unfold Checkout.calculateTotals, Checkout.accumulate.
    rewrite !fold_left_app. cbn [fold_left].
    now rewrite (addItem_default_quantity _ _ Hq). }
  split; [exact Htotal|]. split.
  - unfold Checkout.paymentAmount. now rewrite Htotal.
  - unfold Checkout.itemTotal. rewrite (CheckoutFacts.orElse_one _ Hq).
    reflexivity.
Qed.

Lemma zero_quantity_counts_as_one_witness :
  Checkout.paymentAmount [Checkout.markedUpItem; zeroQuantity]
  = Some 3000%Z /\
  Checkout.paymentAmount
    [Checkout.markedUpItem; withQuantity (Some PrimFloat.one) zeroQuantity]
  = Some 3000%Z.
Proof.
  destruct (zero_quantity_counts_as_one zeroQuantity
              [Checkout.markedUpItem] [])
    as (_ & Hpay & _).
  - right. exists PrimFloat.zero. split; reflexivity.
  - cbn [app] in Hpay. split; [rewrite Hpay|]; vm_compute; reflexivity.
Defined.

End CharsFacts.
